(** * Conciliação Banco x Conexa (ERP), sem saldo diário

    Shallow embedding of [conciliacao_conexa_banco_sem_saldo.py]:
    the two readers [ler_excel_banco] / [ler_excel_conexa] and the
    line-by-line matcher [conciliar_linha_a_linha].

    Modelling choices, all taken from the source:
    - the [Valor] columns are [float64] (what [pd.to_numeric(..., errors="coerce")]
      yields as soon as a cell is fractional or unparseable); a value is a
      [spec_float] of the Standard Library, [S754_nan] being the NaN that
      [pd.isna] detects. The matcher only compares amounts ([> 0], [==])
      and takes [abs]: no amount is ever rounded by it;
    - [index_por_valor] (a [defaultdict(list)] keyed by the amount) is a
      [gmap spec_float (list nat)]; the lists it holds are the very lists
      that [candidatos.pop(0)] mutates, so a pop is written back into the map;
    - the frame returned by [ler_excel_conexa] carries the default
      [RangeIndex], so the label [idx] of [iterrows] / [erp.loc] is the
      position of the row; [erp.loc[idx]] on a label that does not exist
      raises [KeyError], which is [None] in the option monad;
    - a timestamp is a [Z]; [pd.NaT] and [pd.NA] are [None];
    - a text is the UTF-8 encoding of a Python [str]; [str.strip]
      removes the blanks of [str.isspace], in ASCII and outside it;
    - a label of the frame that [pd.read_excel] returns is a text or a
      value that is not a [str] (a number or a date in the header row),
      on which [c.strip()] raises [AttributeError]. *)

From Stdlib Require Import ZArith String Ascii List.
From Stdlib Require Import Floats.SpecFloat.
From stdpp Require Import base option list gmap strings.

Local Open Scope string_scope.
Local Open Scope list_scope.

(** ** float64 values *)

Module Float64.

Definition prec : Z := 53.
Definition emax : Z := 1024.

(** The literal [0] of [v > 0] and [erp["Valor"] > 0]. *)
Definition zero : spec_float := S754_zero false.

(** [pd.isna(v)] on a float. *)
Definition isna (v : spec_float) : bool :=
  match v with S754_nan => true | _ => false end.

(** [v > 0]: false on NaN, as IEEE comparison is. *)
Definition gt0 (v : spec_float) : bool := SFltb zero v.

(** [abs(v)]. *)
Definition abs (v : spec_float) : spec_float := SFabs v.

(** [a == b] on floats, which (with [hash]) is what a [dict] uses to
    compare keys. *)
Definition eqb (a b : spec_float) : bool := SFeqb a b.

Definition encode_sf (x : spec_float) : bool + bool + unit + bool * positive * Z :=
  match x with
  | S754_zero s => inl (inl (inl s))
  | S754_infinity s => inl (inl (inr s))
  | S754_nan => inl (inr tt)
  | S754_finite s m e => inr (s, m, e)
  end.

Definition decode_sf (x : bool + bool + unit + bool * positive * Z) : spec_float :=
  match x with
  | inl (inl (inl s)) => S754_zero s
  | inl (inl (inr s)) => S754_infinity s
  | inl (inr _) => S754_nan
  | inr (s, m, e) => S754_finite s m e
  end.

(** The amounts 100.0 and -100.0 as float64 values. *)
Definition cem : spec_float := S754_finite false 7036874417766400 (-46).
Definition menos_cem : spec_float := S754_finite true 7036874417766400 (-46).

(** 1234.56 as a float64: [0x1.34a3d70a3d70ap+10]. *)
Definition v1234_56 : spec_float := S754_finite false 5429652300748554 (-42).

End Float64.

#[global] Instance spec_float_eq_dec : EqDecision spec_float.
Proof. solve_decision. Defined.

#[global] Instance spec_float_countable : Countable spec_float.
Proof.
  refine (inj_countable' Float64.encode_sf Float64.decode_sf _).
  intros []; reflexivity.
Defined.

(** ** Records of the three frames *)

(** A cell that the readers pass through untouched ([Tipo], [Protocolo],
    [Fornecedor]): its text, or the null value (NaN) of an empty cell. *)
Inductive objeto : Type :=
  | Str (s : string)
  | Nulo.

#[global] Instance objeto_eq_dec : EqDecision objeto.
Proof. solve_decision. Defined.

(** A row of the frame returned by [ler_excel_banco]:
    columns [Tipo], [Protocolo], [Data], [Valor]. *)
Record LinhaBanco : Type := MkLinhaBanco {
  b_Tipo : objeto;
  b_Protocolo : objeto;
  b_Data : option Z;
  b_Valor : spec_float
}.

(** A row of the frame returned by [ler_excel_conexa]:
    columns [Quitação], [Valor], [Fornecedor]. *)
Record LinhaErp : Type := MkLinhaErp {
  e_Quitacao : option Z;
  e_Valor : spec_float;
  e_Fornecedor : objeto
}.

(** The dict [linha] built for each bank row; one field per key, in the
    order of the source. *)
Record Linha : Type := MkLinha {
  Data_Banco : option Z;
  Valor_Banco : spec_float;
  Tipo_Banco : objeto;
  Protocolo_Banco : objeto;
  Data_ERP_Quitacao : option Z;
  Valor_ERP : option spec_float;
  Fornecedor_ERP : objeto;
  Status : string
}.

(** The four status texts the source writes. *)
Definition ZeroOuInvalido : string := "Zero ou inválido".
Definition EntradaNoBanco : string := "Entrada no Banco".
Definition Conciliado : string := "Conciliado".
Definition NaoConciliado : string := "Não conciliado".

(** ** conciliar_linha_a_linha *)

Module Conciliacao.
Import Float64.

(** [erp_pos = erp[erp["Valor"] > 0]], with the index label of each
    kept row, as [iterrows] yields them. *)
Definition erp_pos (erp : list LinhaErp) : list (nat * LinhaErp) :=
  filter (λ p, gt0 (e_Valor p.2) = true) (imap (λ idx row, (idx, row)) erp).

(** [index_por_valor[k].append(idx)] on a [defaultdict(list)].

    A [dict] finds a float key by [==]. Every key stored here is [> 0],
    and on such a key [==] is equality of the two values (lemma
    [eqb_gt0_eq] below), which is how a [gmap] finds its keys. *)
Definition append_idx (k : spec_float) (idx : nat)
    (index_por_valor : gmap spec_float (list nat)) : gmap spec_float (list nat) :=
  <[k := default [] (index_por_valor !! k) ++ [idx]]> index_por_valor.

(** The loop filling [index_por_valor]. *)
Definition indexar (erp : list LinhaErp) : gmap spec_float (list nat) :=
  foldl (λ index_por_valor p, append_idx (e_Valor p.2) p.1 index_por_valor) ∅ (erp_pos erp).

(** The dict [linha] as first created: bank fields copied, match
    fields at [pd.NaT], [pd.NA] and the empty string, empty status. *)
Definition linha_inicial (b : LinhaBanco) : Linha :=
  {| Data_Banco := b_Data b;
     Valor_Banco := b_Valor b;
     Tipo_Banco := b_Tipo b;
     Protocolo_Banco := b_Protocolo b;
     Data_ERP_Quitacao := None;
     Valor_ERP := None;
     Fornecedor_ERP := Str "";
     Status := "" |}.

Definition com_status (s : string) (l : Linha) : Linha :=
  {| Data_Banco := Data_Banco l;
     Valor_Banco := Valor_Banco l;
     Tipo_Banco := Tipo_Banco l;
     Protocolo_Banco := Protocolo_Banco l;
     Data_ERP_Quitacao := Data_ERP_Quitacao l;
     Valor_ERP := Valor_ERP l;
     Fornecedor_ERP := Fornecedor_ERP l;
     Status := s |}.

(** The three assignments from the ERP row [e], then the status. The
    frame of [ler_excel_conexa] always has the column [Fornecedor], so
    [e.get("Fornecedor", "")] is its value in the row. *)
Definition com_erp (e : LinhaErp) (l : Linha) : Linha :=
  {| Data_Banco := Data_Banco l;
     Valor_Banco := Valor_Banco l;
     Tipo_Banco := Tipo_Banco l;
     Protocolo_Banco := Protocolo_Banco l;
     Data_ERP_Quitacao := e_Quitacao e;
     Valor_ERP := Some (e_Valor e);
     Fornecedor_ERP := e_Fornecedor e;
     Status := Conciliado |}.

(** Body of [for _, b in banco.iterrows()]. It returns the index after
    the iteration, the value of [idx_erp] when the iteration popped one
    ([None] otherwise) and the [linha] appended to [linhas]. The outer
    [option] is [None] when [erp.loc[idx_erp]] raises. *)
Definition passo (erp : list LinhaErp) (index_por_valor : gmap spec_float (list nat))
    (b : LinhaBanco) : option (gmap spec_float (list nat) * option nat * Linha) :=
  let linha := linha_inicial b in
  let v := b_Valor b in
  if isna v then Some (index_por_valor, None, com_status ZeroOuInvalido linha)
  else if gt0 v then Some (index_por_valor, None, com_status EntradaNoBanco linha)
  else
    let alvo := abs v in
    let candidatos := default [] (index_por_valor !! alvo) in
    match candidatos with
    | idx_erp :: resto =>
        e ← erp !! idx_erp;
        Some (<[alvo := resto]> index_por_valor, Some idx_erp, com_erp e linha)
    | [] => Some (index_por_valor, None, com_status NaoConciliado linha)
    end.

(** The loop over the bank rows, threading the index. *)
Fixpoint laco (erp : list LinhaErp) (index_por_valor : gmap spec_float (list nat))
    (banco : list LinhaBanco) : option (list (option nat * Linha)) :=
  match banco with
  | [] => Some []
  | b :: banco' =>
      '(index', idx_erp, linha) ← passo erp index_por_valor b;
      linhas ← laco erp index' banco';
      Some ((idx_erp, linha) :: linhas)
  end.

(** The run with, next to each output row, the ERP index it consumed. *)
Definition conciliar_rastro (banco : list LinhaBanco) (erp : list LinhaErp)
    : option (list (option nat * Linha)) :=
  laco erp (indexar erp) banco.

(** [conciliar_linha_a_linha(banco, erp)]: the frame of the [linhas]. *)
Definition conciliar_linha_a_linha (banco : list LinhaBanco) (erp : list LinhaErp)
    : option (list Linha) :=
  fmap (M := option) (fmap (M := list) snd) (conciliar_rastro banco erp).

(** *** Reading of the run used by the proofs

    [elegivel erp k j]: row [j] of [erp] is a candidate for the amount
    [k], that is [erp["Valor"] > 0] holds for it and its amount [== k]. *)
Definition elegivel (erp : list LinhaErp) (k : spec_float) (j : nat) : bool :=
  match erp !! j with
  | Some e => gt0 (e_Valor e) && eqb (e_Valor e) k
  | None => false
  end.

(** The candidates for [k] that are not in [usados], in the order of the
    ERP frame. *)
Definition livres (erp : list LinhaErp) (usados : list nat) (k : spec_float) : list nat :=
  filter (λ j, elegivel erp k j = true ∧ j ∉ usados) (seq 0 (length erp)).

(** The queues of the index are the unconsumed candidates: [usados] is
    the list of the indices popped so far. *)
Definition inv_index (erp : list LinhaErp) (usados : list nat)
    (index_por_valor : gmap spec_float (list nat)) : Prop :=
  ∀ k, default [] (index_por_valor !! k) = livres erp usados k.

(** What the loop appends, bank row by bank row, when the rows of
    [usados] are already consumed. *)
Inductive Rastro (erp : list LinhaErp) :
    list nat → list LinhaBanco → list (option nat * Linha) → Prop :=
  | Rastro_fim usados :
      Rastro erp usados [] []
  | Rastro_invalido usados b banco linhas :
      isna (b_Valor b) = true →
      Rastro erp usados banco linhas →
      Rastro erp usados (b :: banco)
        ((None, com_status ZeroOuInvalido (linha_inicial b)) :: linhas)
  | Rastro_entrada usados b banco linhas :
      isna (b_Valor b) = false →
      gt0 (b_Valor b) = true →
      Rastro erp usados banco linhas →
      Rastro erp usados (b :: banco)
        ((None, com_status EntradaNoBanco (linha_inicial b)) :: linhas)
  | Rastro_conciliado usados b banco linhas idx_erp resto e :
      isna (b_Valor b) = false →
      gt0 (b_Valor b) = false →
      livres erp usados (abs (b_Valor b)) = idx_erp :: resto →
      erp !! idx_erp = Some e →
      Rastro erp (idx_erp :: usados) banco linhas →
      Rastro erp usados (b :: banco)
        ((Some idx_erp, com_erp e (linha_inicial b)) :: linhas)
  | Rastro_nao_conciliado usados b banco linhas :
      isna (b_Valor b) = false →
      gt0 (b_Valor b) = false →
      livres erp usados (abs (b_Valor b)) = [] →
      Rastro erp usados banco linhas →
      Rastro erp usados (b :: banco)
        ((None, com_status NaoConciliado (linha_inicial b)) :: linhas).

(** The match fields of a row are the ones [linha] is created with. *)
Definition sem_match (l : Linha) : Prop :=
  Data_ERP_Quitacao l = None ∧ Valor_ERP l = None ∧ Fornecedor_ERP l = Str "".

End Conciliacao.

(** ** ler_excel_banco and ler_excel_conexa *)

Module Leitura.
Import Float64.

(** A frame whose labels are all text: the headers, and the rows as
    lists of cells aligned with the headers. This is the frame of
    [pd.read_excel] once the pass [c.strip()] over its labels has not
    raised; the frame as read, whose labels need not be text, is
    [Planilha] below, with the readers on it. *)
Record DataFrame : Type := MkDataFrame {
  columns : list string;
  linhas_df : list (list objeto)
}.

(** What the readers raise. [ValueError] keeps the fixed text of the
    message and the two lists it interpolates: [faltando] and
    [list(df.columns)]. [KeyError] is a lookup of [df[c]] for a header
    [c] that the frame does not have. [AttributeError] is [c.strip()]
    on a label [c] that is not a [str]. *)
Inductive erro : Type :=
  | ValueError (texto : string) (faltando encontradas : list string)
  | KeyError (c : string)
  | AttributeError.

Inductive resultado (A : Type) : Type :=
  | Ok (a : A)
  | Raise (e : erro).
Arguments Ok {A} a.
Arguments Raise {A} e.

(** *** Text *)

Definition codigo (c : ascii) : nat := nat_of_ascii c.

(** [str.isspace] on the ASCII range: tab to carriage return, the four
    separators 28-31 and the space. *)
Definition isspace (c : ascii) : bool :=
  let n := codigo c in
  ((9 <=? n) && (n <=? 13) || (28 <=? n) && (n <=? 31) || (n =? 32))%nat.

(** A [string] here is the UTF-8 encoding of a Python [str]. The blanks
    of [str.isspace] outside ASCII take two or three bytes:
    U+0085 and U+00A0 (C2 85, C2 A0); U+1680 (E1 9A 80); U+2000 to
    U+200A, U+2028, U+2029 and U+202F (E2 80 80-8A, A8, A9, AF);
    U+205F (E2 81 9F); U+3000 (E3 80 80). *)
Definition branco2 (c1 c2 : ascii) : bool :=
  let n1 := codigo c1 in
  let n2 := codigo c2 in
  ((n1 =? 194) && ((n2 =? 133) || (n2 =? 160)))%nat.

Definition branco3 (c1 c2 c3 : ascii) : bool :=
  let n1 := codigo c1 in
  let n2 := codigo c2 in
  let n3 := codigo c3 in
  ((n1 =? 225) && (n2 =? 154) && (n3 =? 128)
   || (n1 =? 226) && (n2 =? 128)
      && ((128 <=? n3) && (n3 <=? 138) || (n3 =? 168) || (n3 =? 169)
          || (n3 =? 175))
   || (n1 =? 226) && (n2 =? 129) && (n3 =? 159)
   || (n1 =? 227) && (n2 =? 128) && (n3 =? 128))%nat.

(** The text is made of blanks only ([s.isspace()], or [s] is empty). *)
Fixpoint so_espacos (s : string) : bool :=
  match s with
  | EmptyString => true
  | String c1 s1 =>
      if isspace c1 then so_espacos s1
      else
        match s1 with
        | String c2 s2 =>
            if branco2 c1 c2 then so_espacos s2
            else
              match s2 with
              | String c3 s3 => branco3 c1 c2 c3 && so_espacos s3
              | EmptyString => false
              end
        | EmptyString => false
        end
  end.

Fixpoint lstrip (s : string) : string :=
  match s with
  | EmptyString => EmptyString
  | String c1 s1 =>
      if isspace c1 then lstrip s1
      else
        match s1 with
        | String c2 s2 =>
            if branco2 c1 c2 then lstrip s2
            else
              match s2 with
              | String c3 s3 => if branco3 c1 c2 c3 then lstrip s3 else s
              | EmptyString => s
              end
        | EmptyString => s
        end
  end.

(** The text without the blanks it ends with: cut where what is left is
    made of blanks only. *)
Fixpoint rstrip (s : string) : string :=
  match s with
  | EmptyString => EmptyString
  | String c s' => if so_espacos s then EmptyString else String c (rstrip s')
  end.

(** The bytes a blank can start with. *)
Definition inicio_de_branco (c : ascii) : bool :=
  let n := codigo c in
  isspace c || ((n =? 194) || (225 <=? n) && (n <=? 227))%nat.

(** No byte of the text can start a blank. *)
Fixpoint sem_branco (s : string) : bool :=
  match s with
  | EmptyString => true
  | String c s' => negb (inicio_de_branco c) && sem_branco s'
  end.

(** [c.strip()]. *)
Definition strip (s : string) : string := rstrip (lstrip s).

(** [str.lower] on the ASCII letters. *)
Definition lower_ascii (c : ascii) : ascii :=
  let n := codigo c in
  if ((65 <=? n) && (n <=? 90))%nat then ascii_of_nat (n + 32) else c.

Fixpoint lower (s : string) : string :=
  match s with
  | EmptyString => EmptyString
  | String c s' => String (lower_ascii c) (lower s')
  end.

(** [.str.replace(",", ".", regex=False)] on one cell. *)
Fixpoint replace_virgula (s : string) : string :=
  match s with
  | EmptyString => EmptyString
  | String c s' =>
      String (if Ascii.eqb c "," then "."%char else c) (replace_virgula s')
  end.

(** [.astype(str)] on one cell: the text of an empty cell is ["nan"]. *)
Definition astype_str (o : objeto) : string :=
  match o with
  | Str s => s
  | Nulo => "nan"
  end.

(** *** pd.to_numeric(..., errors="coerce") on a text cell

    [pd.to_numeric] is pandas code. It is modelled after its string
    converter: optional blanks, an optional sign, decimal digits with an
    optional [.] and fraction (one digit at least), an optional exponent
    [e]/[E] with optional sign and at least one digit, optional blanks,
    end of text; or one of the names nan, inf, infinity, in any case,
    with an optional sign. Anything else is coerced to NaN. A decimal is
    read as the float64 nearest to it (ties to even). *)

Definition is_digit (c : ascii) : bool :=
  let n := codigo c in ((48 <=? n) && (n <=? 57))%nat.

Definition valor_digito (c : ascii) : N := N.of_nat (codigo c - 48).

(** C [isspace]: tab to carriage return, and the space. *)
Definition isspace_c (c : ascii) : bool :=
  let n := codigo c in ((9 <=? n) && (n <=? 13) || (n =? 32))%nat.

Fixpoint pular_brancos (s : string) : string :=
  match s with
  | EmptyString => EmptyString
  | String c s' => if isspace_c c then pular_brancos s' else s
  end.

(** Reads a run of digits: the number read so far, how many digits were
    read, and the rest of the text. *)
Fixpoint ler_digitos (s : string) (acc : N) (n : nat) : N * nat * string :=
  match s with
  | EmptyString => (acc, n, s)
  | String c s' =>
      if is_digit c then ler_digitos s' (acc * 10 + valor_digito c)%N (S n)
      else (acc, n, s)
  end.

Definition ler_sinal (s : string) : bool * string :=
  match s with
  | String "-" s' => (true, s')
  | String "+" s' => (false, s')
  | _ => (false, s)
  end.

(** The float64 nearest to [(-1)^neg * m * 10^e10]. *)
Definition decimal_float (neg : bool) (m : N) (e10 : Z) : spec_float :=
  match m with
  | N0 => S754_zero neg
  | Npos p =>
      if (0 <=? e10)%Z then
        binary_normalize prec emax
          ((if neg then Z.neg p else Z.pos p) * 10 ^ e10)%Z 0%Z false
      else
        SFdiv prec emax (S754_finite neg p 0)
          (S754_finite false (Z.to_pos (10 ^ (- e10))) 0)
  end.

(** The optional exponent: [None] when [e]/[E] is not followed by a
    number. *)
Definition ler_expoente (s : string) : option (Z * string) :=
  match s with
  | String c s' =>
      if Ascii.eqb c "e" || Ascii.eqb c "E" then
        let '(neg, s1) := ler_sinal s' in
        let '(n, k, s2) := ler_digitos s1 0%N 0 in
        if (k =? 0)%nat then None
        else Some (if neg then (- Z.of_N n)%Z else Z.of_N n, s2)
      else Some (0%Z, s)
  | EmptyString => Some (0%Z, s)
  end.

Definition ler_decimal (s : string) : option spec_float :=
  let '(neg, s1) := ler_sinal (pular_brancos s) in
  let '(m1, n_int, s2) := ler_digitos s1 0%N 0 in
  let '(m, n_frac, s3) :=
    match s2 with
    | String "." s' => ler_digitos s' m1 0
    | _ => (m1, 0, s2)
    end in
  if (n_int + n_frac =? 0)%nat then None
  else
    '(e, s4) ← ler_expoente s3;
    match pular_brancos s4 with
    | EmptyString => Some (decimal_float neg m (e - Z.of_nat n_frac))
    | _ => None
    end.

Definition ler_nome (s : string) : option spec_float :=
  let '(neg, s') := ler_sinal (lower s) in
  if decide (s' = "nan") then Some S754_nan
  else if decide (s' = "inf" ∨ s' = "infinity") then Some (S754_infinity neg)
  else None.

Definition to_numeric (s : string) : spec_float :=
  match ler_decimal s with
  | Some v => v
  | None => default S754_nan (ler_nome s)
  end.

(** One cell of the [Valor] column through
    [pd.to_numeric(col.astype(str).str.replace(",", "."), errors="coerce")],
    for a column that comes out as [float64]: the cell is read to the
    nearest [float64]. When every cell of the column is an integer
    literal pandas keeps the column as [int64] instead; the reading
    here is the same number for the integers up to [2^53] in absolute
    value, and is the nearest [float64] of the integer beyond, where
    [int64] keeps the integer itself. *)
Definition valor_da_celula (o : objeto) : spec_float :=
  to_numeric (replace_virgula (astype_str o)).

(** *** Columns *)

(** [cols = {c.strip(): c for c in df.columns}]: a later header with the
    same stripped name replaces an earlier one. *)
Definition cols_de (df : DataFrame) : gmap string string :=
  foldl (λ cols c, <[strip c := c]> cols) ∅ (columns df).

(** [faltando = [c for c in obrig if c not in cols]]. *)
Definition faltando_de (obrig : list string) (cols : gmap string string)
    : list string :=
  filter (λ c, cols !! c = None) obrig.

(** [df[c]]: the Series under the header [c] (the first one, [read_excel]
    giving distinct headers). *)
Definition coluna (df : DataFrame) (c : string) : resultado (list objeto) :=
  match list_find (λ h, h = c) (columns df) with
  | Some (pos, _) => Ok ((λ linha, default Nulo (linha !! pos)) <$> linhas_df df)
  | None => Raise (KeyError c)
  end.

(** [df[cols[nome]]], [nome] being a key of [cols]. *)
Definition coluna_de (df : DataFrame) (cols : gmap string string) (nome : string)
    : resultado (list objeto) :=
  match cols !! nome with
  | Some c => coluna df c
  | None => Raise (KeyError nome)
  end.

Definition bind_resultado {A B} (r : resultado A) (k : A → resultado B)
    : resultado B :=
  match r with
  | Ok a => k a
  | Raise e => Raise e
  end.

Notation "x ←r r ; k" := (bind_resultado r (λ x, k))
  (at level 20, r at level 100, k at level 200, right associativity,
   only parsing).

Definition obrig_banco : list string := ["Data"; "Valor"].
Definition obrig_conexa : list string := ["Quitação"; "Valor"].

Definition texto_banco : string := "Arquivo do Banco precisa ter colunas".
Definition texto_conexa : string := "Arquivo do Conexa precisa ter colunas".

Section Leitores.

(** [pd.to_datetime(serie, errors="coerce", dayfirst=True)], pandas code
    taken as given: it returns, on the index of its argument, a
    timestamp or [NaT] for each cell. *)
Variable to_datetime : list objeto → list (option Z).

(** [ler_excel_banco], from the frame read.

    [df_out] starts without rows. A scalar assigned to it while it has
    none makes a column without rows; the first Series assigned brings
    the index, and the rows it adds hold NaN in the columns already
    there. A scalar assigned after that fills the column. So an absent
    [Tipo] reads NaN, and an absent [Protocolo] reads NaN unless [Tipo]
    was present, in which case it reads the empty string. The columns
    are joined by position, the rows being those of [df]. *)
Definition ler_excel_banco (df : DataFrame) : resultado (list LinhaBanco) :=
  let cols := cols_de df in
  let obrig := obrig_banco in
  let faltando := faltando_de obrig cols in
  match faltando with
  | _ :: _ => Raise (ValueError texto_banco faltando (columns df))
  | [] =>
      let n := length (linhas_df df) in
      tipo ←r (if decide (is_Some (cols !! "Tipo")) then coluna_de df cols "Tipo"
               else Ok []);
      protocolo ←r (if decide (is_Some (cols !! "Protocolo"))
                    then coluna_de df cols "Protocolo"
                    else if decide (is_Some (cols !! "Tipo"))
                         then Ok (replicate n (Str ""))
                         else Ok []);
      data ←r coluna_de df cols "Data";
      valor ←r coluna_de df cols "Valor";
      let data := to_datetime data in
      let valor := valor_da_celula <$> valor in
      Ok ((λ i, {| b_Tipo := default Nulo (tipo !! i);
                   b_Protocolo := default Nulo (protocolo !! i);
                   b_Data := default None (data !! i);
                   b_Valor := default S754_nan (valor !! i) |}) <$> seq 0 n)
  end.

(** [ler_excel_conexa], from the frame read. [Fornecedor] is assigned
    last, when [df_out] has its rows: the scalar fills the column. *)
Definition ler_excel_conexa (df : DataFrame) : resultado (list LinhaErp) :=
  let cols := cols_de df in
  let obrig := obrig_conexa in
  let faltando := faltando_de obrig cols in
  match faltando with
  | _ :: _ => Raise (ValueError texto_conexa faltando (columns df))
  | [] =>
      let n := length (linhas_df df) in
      quitacao ←r coluna_de df cols "Quitação";
      valor ←r coluna_de df cols "Valor";
      let quitacao := to_datetime quitacao in
      let valor := valor_da_celula <$> valor in
      fornecedor ←r (if decide (is_Some (cols !! "Fornecedor"))
                     then coluna_de df cols "Fornecedor"
                     else Ok (replicate n (Str "")));
      Ok ((λ i, {| e_Quitacao := default None (quitacao !! i);
                   e_Valor := default S754_nan (valor !! i);
                   e_Fornecedor := default Nulo (fornecedor !! i) |}) <$> seq 0 n)
  end.

(** The two readers seen alike: which sheet, its required columns, and
    the exception its reader raises, if any. *)
Inductive planilha : Type := Banco | Conexa.

Definition obrig_de (p : planilha) : list string :=
  match p with
  | Banco => obrig_banco
  | Conexa => obrig_conexa
  end.

Definition texto_de (p : planilha) : string :=
  match p with
  | Banco => texto_banco
  | Conexa => texto_conexa
  end.

Definition excecao {A} (r : resultado A) : option erro :=
  match r with
  | Ok _ => None
  | Raise e => Some e
  end.

Definition excecao_leitura (p : planilha) (df : DataFrame) : option erro :=
  match p with
  | Banco => excecao (ler_excel_banco df)
  | Conexa => excecao (ler_excel_conexa df)
  end.

End Leitores.

(** A [to_datetime] for the examples: no cell holds a date. *)
Definition sem_datas (serie : list objeto) : list (option Z) :=
  (λ _, None) <$> serie.

End Leitura.

(** ** The readers on the frame as read *)

Module Planilhas.
Import Leitura.

(** A label of the frame [pd.read_excel] returns: the text of a header
    cell or, for a header cell that holds a number or a date, a value
    that is not a [str]. *)
Inductive rotulo : Type :=
  | Texto (s : string)
  | NaoTexto (n : Z).

(** The frame as read: its labels and its rows. *)
Record Planilha : Type := MkPlanilha {
  rotulos : list rotulo;
  linhas_lidas : list (list objeto)
}.

(** The labels as texts, when all of them are texts. *)
Fixpoint textos_de (l : list rotulo) : option (list string) :=
  match l with
  | [] => Some []
  | Texto s :: l' => cons s <$> textos_de l'
  | NaoTexto _ :: _ => None
  end.

(** The no-break space U+00A0, a blank outside ASCII. *)
Definition nbsp : string := String "194" (String "160" EmptyString).

Section LeitoresDePlanilha.

Variable to_datetime : list objeto → list (option Z).

(** [ler_excel_banco] from the frame as read. Its first statement after
    [pd.read_excel], [cols = {c.strip(): c for c in df.columns}], calls
    [strip] on every label: a label that is not a [str] raises
    [AttributeError] there, before the required columns are looked for
    and before any row is touched. When every label is a text the
    reader goes on as [Leitura.ler_excel_banco] on these texts. *)
Definition ler_excel_banco_planilha (pl : Planilha) : resultado (list LinhaBanco) :=
  match textos_de (rotulos pl) with
  | Some textos => ler_excel_banco to_datetime (MkDataFrame textos (linhas_lidas pl))
  | None => Raise AttributeError
  end.

(** [ler_excel_conexa] from the frame as read, in the same way. *)
Definition ler_excel_conexa_planilha (pl : Planilha) : resultado (list LinhaErp) :=
  match textos_de (rotulos pl) with
  | Some textos => ler_excel_conexa to_datetime (MkDataFrame textos (linhas_lidas pl))
  | None => Raise AttributeError
  end.

(** The exception a reader raises on the frame as read, if any. *)
Definition excecao_planilha (p : planilha) (pl : Planilha) : option erro :=
  match p with
  | Banco => excecao (ler_excel_banco_planilha pl)
  | Conexa => excecao (ler_excel_conexa_planilha pl)
  end.

End LeitoresDePlanilha.

End Planilhas.

(** ** main, up to the frame handed to the writer *)

Module Principal.
Import Leitura Conciliacao.

Section Main.

Variable to_datetime : list objeto → list (option Z).

(** [main] once the two sheets are read by [pd.read_excel]: the bank
    reader, then the ERP reader, then the matcher. The result is
    [df_conc], the frame that [main] goes on to write and style; an
    exception of a reader leaves [main] before anything is written.
    The last case is the [KeyError] of [erp.loc[idx_erp]]. *)
Definition main (df_banco df_erp : DataFrame) : resultado (list Linha) :=
  banco ←r ler_excel_banco to_datetime df_banco;
  erp ←r ler_excel_conexa to_datetime df_erp;
  match conciliar_linha_a_linha banco erp with
  | Some df_conc => Ok df_conc
  | None => Raise (KeyError "idx_erp")
  end.

End Main.

End Principal.

(** ** aplicar_cores *)

Module Estilo.
Import Float64 Leitura.

(** What [cell.value] can be in a loaded sheet. *)
Inductive valor_celula : Type :=
  | VNone
  | VStr (s : string)
  | VInt (n : Z)
  | VFloat (f : spec_float)
  | VBool (b : bool)
  | VData (t : Z).

(** The font of a cell: the one it was loaded with, or the fresh
    [Font(color=...)] that [aplicar_cores] assigns. *)
Inductive Fonte : Type :=
  | FonteLida (k : nat)
  | Font (color : string).

Record Celula : Type := MkCelula {
  value : valor_celula;
  font : Fonte;
  number_format : string
}.

#[global] Instance valor_celula_eq_dec : EqDecision valor_celula.
Proof. solve_decision. Defined.

(** [isinstance(cell.value, (int, float))]; a [bool] is an [int]. *)
Definition e_numero (v : valor_celula) : bool :=
  match v with
  | VInt _ | VFloat _ | VBool _ => true
  | _ => false
  end.

(** [cell.value > 0] and [cell.value < 0] on a number. *)
Definition maior_que_zero (v : valor_celula) : bool :=
  match v with
  | VInt n => (0 <? n)%Z
  | VFloat f => gt0 f
  | VBool b => b
  | _ => false
  end.

Definition menor_que_zero (v : valor_celula) : bool :=
  match v with
  | VInt n => (n <? 0)%Z
  | VFloat f => SFltb f zero
  | _ => false
  end.

Definition verde : string := "008000".
Definition vermelho : string := "FF0000".
Definition formato_data : string := "dd/mm/yyyy".

(** Body of [for cell in row] in the colouring loop. *)
Definition colorir (cell : Celula) : Celula :=
  if e_numero (value cell) then
    if maior_que_zero (value cell) then
      {| value := value cell; font := Font verde;
         number_format := number_format cell |}
    else if menor_que_zero (value cell) then
      {| value := value cell; font := Font vermelho;
         number_format := number_format cell |}
    else cell
  else cell.

(** [cell.number_format = "dd/mm/yyyy"]. *)
Definition formatar_data (cell : Celula) : Celula :=
  {| value := value cell; font := font cell; number_format := formato_data |}.

(** The header dict [{cell.value: idx for idx, cell in enumerate(row 1,
    start=1)}], kept for its text keys, the only ones looked up. A later
    cell with the same text replaces an earlier one. A sheet is the list
    of its rows, row 1 first. *)
Definition header_de (ws : list (list Celula)) : gmap string nat :=
  foldl (λ header p,
           match value p.2 with
           | VStr s => <[s := p.1]> header
           | _ => header
           end)
        ∅ (imap (λ i cell, (S i, cell)) (default [] (head ws))).

(** The cells of column [col_idx] (counted from 1) in rows 2 to
    [ws.max_row], each replaced by its image under [f]: what both
    [ws.iter_rows(min_row=2, min_col=col_idx, max_col=col_idx)] and
    [ws[f"{letter}2":f"{letter}{ws.max_row}"]] walk through. *)
Definition na_coluna (f : Celula → Celula) (col_idx : nat)
    (ws : list (list Celula)) : list (list Celula) :=
  match ws with
  | [] => []
  | cabecalho :: dados => cabecalho :: (alter f (col_idx - 1) <$> dados)
  end.

(** One round of either [for col_name in ...] loop; [if not col_idx:
    continue] skips a name that is not in the header. *)
Definition na_coluna_de (header : gmap string nat) (f : Celula → Celula)
    (ws : list (list Celula)) (col_name : string) : list (list Celula) :=
  match header !! col_name with
  | Some (S k) => na_coluna f (S k) ws
  | _ => ws
  end.

(** The two loops of [aplicar_cores] on the sheet. *)
Definition estilizar (ws : list (list Celula)) : list (list Celula) :=
  let header := header_de ws in
  let ws := foldl (na_coluna_de header colorir) ws ["Valor Banco"; "Valor ERP"] in
  foldl (na_coluna_de header formatar_data) ws ["Data Banco"; "Data ERP Quitação"].

(** [aplicar_cores(caminho, sheet_name)] from the workbook loaded to the
    workbook saved; [wb[sheet_name]] raises [KeyError] when the workbook
    has no such sheet. *)
Definition aplicar_cores (wb : gmap string (list (list Celula)))
    (sheet_name : string) : resultado (gmap string (list (list Celula))) :=
  match wb !! sheet_name with
  | Some ws => Ok (<[sheet_name := estilizar ws]> wb)
  | None => Raise (KeyError sheet_name)
  end.

(** *** Reading of the styling used by the proofs *)

(** A sheet with every cell replaced by its image under [g], which is
    told the row and the column of the cell (both counted from 0). *)
Definition por_celula (g : nat → nat → Celula → Celula)
    (ws : list (list Celula)) : list (list Celula) :=
  imap (λ r linha, imap (g r) linha) ws.

(** Column [p] (counted from 0) is the one the header gives for [nome]. *)
Definition coluna_de_nome (header : gmap string nat) (nome : string) (p : nat)
    : bool :=
  bool_decide (header !! nome = Some (S p)).

Definition coluna_de_valor (header : gmap string nat) (p : nat) : bool :=
  coluna_de_nome header "Valor Banco" p || coluna_de_nome header "Valor ERP" p.

Definition coluna_de_data (header : gmap string nat) (p : nat) : bool :=
  coluna_de_nome header "Data Banco" p ||
  coluna_de_nome header "Data ERP Quitação" p.

(** What [aplicar_cores] makes of the cell at row [r] (counted from 0,
    the header row being 0) and column [p]: coloured by sign in a value
    column, given the date format in a date column, left alone in the
    header row and in every other column. *)
Definition estilo_final (header : gmap string nat) (r p : nat) (cell : Celula)
    : Celula :=
  let cell := if negb (r =? 0)%nat && coluna_de_valor header p then colorir cell
              else cell in
  if negb (r =? 0)%nat && coluna_de_data header p then formatar_data cell
  else cell.

End Estilo.

(** ** Where a reader finds a column *)

Module Posicao.
Import Leitura.

(** The position, among the headers, of the column a reader uses for
    the name [nome]: the header [cols[nome]], at its first occurrence. *)
Definition posicao (df : DataFrame) (nome : string) : option nat :=
  c ← cols_de df !! nome;
  fst <$> list_find (λ h, h = c) (columns df).

(** The cell of a sheet row at a position; a missing cell is empty. *)
Definition celula (linha : list objeto) (pos : nat) : objeto :=
  default Nulo (linha !! pos).

End Posicao.

(** ** Counting the matches *)

Module Contagem.
Import Float64.

(** The amounts that reach the matching branch of the loop: neither NaN
    nor [> 0]. *)
Definition debito (v : spec_float) : bool := negb (isna v) && negb (gt0 v).

(** How many bank rows look for the amount [k]. *)
Definition demanda (k : spec_float) (banco : list LinhaBanco) : nat :=
  length (filter (λ b, debito (b_Valor b) = true ∧ abs (b_Valor b) = k) banco).

(** How many ERP rows offer the amount [k]: those with [Valor > 0]
    equal to [k]. *)
Definition oferta (k : spec_float) (erp : list LinhaErp) : nat :=
  length (filter (λ e, gt0 (e_Valor e) = true ∧ e_Valor e = k) erp).

(** How many output rows are Conciliado for the amount [k]. *)
Definition conciliados (k : spec_float) (linhas : list Linha) : nat :=
  length (filter (λ l, Status l = Conciliado ∧ abs (Valor_Banco l) = k) linhas).

End Contagem.

(** * Properties *)

Import Float64 Conciliacao.

(** ** Facts on float64 comparison *)

Lemma gt0_not_nan v : gt0 v = true → isna v = false.
Proof. by destruct v. Qed.

Lemma gt0_inv v :
  gt0 v = true → v = S754_infinity false ∨ ∃ m e, v = S754_finite false m e.
Proof. destruct v as [[]|[]| |[] m e]; try done; eauto. Qed.

(** On a positive amount [==] is equality of the values, so a [dict]
    keyed by positive amounts is a map keyed by the values. *)
Lemma eqb_gt0_eq a b : gt0 a = true → eqb a b = true ↔ a = b.
Proof.
  intros [->|(m & e & ->)]%gt0_inv.
  - split; [|by intros <-]. by destruct b as [[]|[]| |[] ??].
  - split.
    + destruct b as [[]|[]| |[] m' e']; try done.
      unfold eqb, SFeqb; simpl.
      destruct (Z.compare_spec e e') as [->| |]; try done.
      rewrite Pos.compare_cont_spec.
      destruct (Pos.compare_spec m m') as [->| |]; done.
    + intros <-. unfold eqb, SFeqb; simpl.
      rewrite Z.compare_refl, Pos.compare_cont_spec. by rewrite Pos.compare_refl.
Qed.

(** [v == 0] holds for the two zeros only. *)
Lemma eqb_zero v : eqb v zero = true ↔ ∃ s, v = S754_zero s.
Proof.
  split.
  - destruct v as [s|[]| |[] ??]; try done. eauto.
  - by intros [s ->].
Qed.

(** The constants are float64 values: [cem] is 100 exactly, and
    [v1234_56], a canonical mantissa at exponent -42, lies less than
    half a unit in the last place (2^-43) from 1234.56. *)
Lemma constantes_float64 :
  cem = S754_finite false (Z.to_pos (100 * 2 ^ 46)) (-46) ∧
  menos_cem = SFopp cem ∧
  valid_binary prec emax cem = true ∧
  valid_binary prec emax v1234_56 = true ∧
  ∃ m, v1234_56 = S754_finite false m (-42) ∧
       (Z.abs (2 * (100 * Z.pos m) - 123456 * 2 ^ 43) < 100)%Z.
Proof. split_and!; try reflexivity. by eexists. Qed.

Lemma elegivel_spec erp k j :
  elegivel erp k j = true ↔
  ∃ e, erp !! j = Some e ∧ gt0 (e_Valor e) = true ∧ e_Valor e = k.
Proof.
  unfold elegivel. destruct (erp !! j) as [e|]; [|by split; [|intros (? & ? & _)]].
  rewrite andb_true_iff. split.
  - intros [Hg He]. exists e. split_and!; try done. by apply eqb_gt0_eq.
  - intros (e' & [= <-] & Hg & He). split; [done|]. by apply eqb_gt0_eq.
Qed.

Lemma elegivel_gt0 erp k j : elegivel erp k j = true → gt0 k = true.
Proof. by intros (e & _ & Hg & <-)%elegivel_spec. Qed.

Lemma elegivel_func erp k k' j :
  elegivel erp k j = true → elegivel erp k' j = true → k = k'.
Proof.
  intros (e & He & _ & <-)%elegivel_spec (e' & He' & _ & <-)%elegivel_spec.
  congruence.
Qed.



(** ** Facts on filtered lists *)

Lemma filter_elem_iff {A} (P Q : A → Prop)
    `{!∀ x, Decision (P x)} `{!∀ x, Decision (Q x)} (l : list A) :
  (∀ x, x ∈ l → P x ↔ Q x) → filter P l = filter Q l.
Proof.
  induction l as [|a l IH]; intros HPQ; [done|].
  rewrite !filter_cons, IH by (intros; apply HPQ; by right).
  pose proof (HPQ a (list_elem_of_here _ _)).
  repeat case_decide; try done; tauto.
Qed.

(** Dropping the head of a filtered duplicate-free list is filtering it out. *)
Lemma filter_pop {A} `{!EqDecision A} (P : A → Prop) `{!∀ x, Decision (P x)}
    (l : list A) x resto :
  NoDup l → filter P l = x :: resto → filter (λ y, P y ∧ y ≠ x) l = resto.
Proof.
  induction l as [|a l IH]; [done|].
  intros [Ha Hl]%NoDup_cons. rewrite !filter_cons.
  destruct (decide (P a)) as [HP|HP].
  - intros [= -> <-]. rewrite decide_False by (by intros [_ []]).
    apply filter_elem_iff. intros y Hy. split; [tauto|].
    intros HPy. split; [done|]. by intros ->.
  - intros Hf. rewrite decide_False by tauto. by apply IH.
Qed.

(** The head of a filtered [seq] is the least index satisfying the filter. *)
Lemma filter_seq_head (P : nat → Prop) `{!∀ x, Decision (P x)} a n j resto :
  filter P (seq a n) = j :: resto →
  P j ∧ a ≤ j < a + n ∧ ∀ j', a ≤ j' < j → ¬ P j'.
Proof.
  revert a. induction n as [|n IH]; intros a; [done|].
  simpl seq. rewrite filter_cons. destruct (decide (P a)) as [HP|HP].
  - intros [= -> _]. split_and!; [done|lia|lia|]. intros j' ?; lia.
  - intros (HPj & ? & Hmin)%IH. split_and!; [done|lia|lia|].
    intros j' Hj'. destruct (decide (j' = a)) as [->|]; [done|].
    apply Hmin. lia.
Qed.

(** ** The index and its invariant *)

Lemma livres_snoc erp e k :
  livres (erp ++ [e]) [] k =
  livres erp [] k ++
    (if gt0 (e_Valor e) && eqb (e_Valor e) k then [length erp] else []).
Proof.
  unfold livres. rewrite length_app, seq_app, filter_app. simpl.
  f_equal.
  - apply filter_elem_iff. intros j [_ Hj]%elem_of_seq.
    unfold elegivel. rewrite lookup_app_l by lia. done.
  - rewrite filter_cons, filter_nil. unfold elegivel.
    rewrite list_lookup_middle by done.
    destruct (gt0 (e_Valor e) && eqb (e_Valor e) k).
    + rewrite decide_True; [done|]. split; [done|]. apply not_elem_of_nil.
    + rewrite decide_False; [done|]. by intros [? _].
Qed.

Lemma indexar_snoc erp e :
  indexar (erp ++ [e]) =
  if gt0 (e_Valor e) then append_idx (e_Valor e) (length erp) (indexar erp)
  else indexar erp.
Proof.
  unfold indexar, erp_pos. rewrite imap_app, filter_app, foldl_app. simpl.
  rewrite filter_cons, filter_nil. simpl. rewrite Nat.add_0_r.
  destruct (gt0 (e_Valor e)).
  - by rewrite decide_True.
  - by rewrite decide_False.
Qed.

(** After the indexing loop the queues hold every candidate, in order. *)
Lemma indexar_inv erp : inv_index erp [] (indexar erp).
Proof.
  induction erp as [|e erp IH] using rev_ind; intros k.
  - unfold indexar, erp_pos, livres. simpl. by rewrite filter_nil, lookup_empty.
  - rewrite livres_snoc, indexar_snoc, <- IH.
    destruct (gt0 (e_Valor e)) eqn:Hg; simpl.
    + unfold append_idx. rewrite lookup_insert.
      destruct (decide (e_Valor e = k)) as [<-|Hne].
      * by rewrite (proj2 (eqb_gt0_eq _ _ Hg) eq_refl).
      * destruct (eqb (e_Valor e) k) eqn:He; [|by rewrite app_nil_r].
        by apply eqb_gt0_eq in He.
    + by rewrite app_nil_r.
Qed.

(** A pop keeps the invariant, the popped index joining [usados]. *)
Lemma inv_index_pop erp usados index_por_valor alvo idx_erp resto :
  inv_index erp usados index_por_valor →
  livres erp usados alvo = idx_erp :: resto →
  inv_index erp (idx_erp :: usados) (<[alvo := resto]> index_por_valor).
Proof.
  intros Hinv Hl k. rewrite lookup_insert.
  destruct (decide (alvo = k)) as [<-|Hne]; simpl.
  - symmetry. unfold livres in *.
    apply (filter_pop _ _ _ _ (NoDup_seq _ _)) in Hl. rewrite <- Hl.
    apply filter_elem_iff. intros j _. rewrite not_elem_of_cons. tauto.
  - rewrite Hinv. unfold livres in *.
    apply filter_seq_head in Hl as ([Hel _] & _ & _).
    apply filter_elem_iff. intros j _. rewrite not_elem_of_cons.
    split; [|tauto]. intros [Hj ?]. split_and!; try done.
    intros ->. apply Hne. eauto using elegivel_func.
Qed.

Lemma livres_lookup erp usados k j resto :
  livres erp usados k = j :: resto →
  ∃ e, erp !! j = Some e ∧ gt0 (e_Valor e) = true ∧ e_Valor e = k.
Proof.
  unfold livres. intros ([Hel _] & _ & _)%filter_seq_head.
  by apply elegivel_spec.
Qed.

(** The loop never raises, and what it appends is described by [Rastro]. *)
Lemma laco_rastro erp banco : ∀ usados index_por_valor,
  inv_index erp usados index_por_valor →
  ∃ linhas, laco erp index_por_valor banco = Some linhas ∧
            Rastro erp usados banco linhas.
Proof.
  induction banco as [|b banco IH]; intros usados index_por_valor Hinv.
  - exists []. split; [done|constructor].
  - simpl. unfold passo.
    destruct (isna (b_Valor b)) eqn:Hna; simpl.
    { destruct (IH _ _ Hinv) as (linhas & -> & HR). eexists. split; [done|].
      by constructor. }
    destruct (gt0 (b_Valor b)) eqn:Hgt; simpl.
    { destruct (IH _ _ Hinv) as (linhas & -> & HR). eexists. split; [done|].
      by constructor. }
    rewrite Hinv.
    destruct (livres erp usados (abs (b_Valor b))) as [|idx_erp resto] eqn:Hl; simpl.
    { destruct (IH _ _ Hinv) as (linhas & -> & HR). eexists. split; [done|].
      by apply Rastro_nao_conciliado. }
    destruct (livres_lookup _ _ _ _ _ Hl) as (e & He & _). rewrite He. simpl.
    destruct (IH _ _ (inv_index_pop _ _ _ _ _ _ Hinv Hl)) as (linhas & -> & HR).
    eexists. split; [done|]. by eapply Rastro_conciliado.
Qed.

Lemma conciliar_rastro_total banco erp :
  ∃ linhas, conciliar_rastro banco erp = Some linhas ∧ Rastro erp [] banco linhas.
Proof. apply laco_rastro, indexar_inv. Qed.

(** ** Facts on [Rastro] *)

Lemma Rastro_length erp usados banco linhas :
  Rastro erp usados banco linhas → length linhas = length banco.
Proof. induction 1; simpl; congruence. Qed.

(** Row [i] of the output is what one iteration appends for bank row [i],
    run with the indices consumed by the rows before it. *)
Lemma Rastro_linha erp usados banco linhas :
  Rastro erp usados banco linhas →
  ∀ i b, banco !! i = Some b →
  ∃ usados_i r l,
    linhas !! i = Some (r, l) ∧
    Rastro erp usados_i [b] [(r, l)] ∧
    ∀ j, j ∈ usados_i ↔
         j ∈ usados ∨ ∃ i' l', i' < i ∧ linhas !! i' = Some (Some j, l').
Proof.
  induction 1 as [usados|usados b0 banco linhas Hna HR IH
                 |usados b0 banco linhas Hna Hgt HR IH
                 |usados b0 banco linhas idx_erp resto e Hna Hgt Hl He HR IH
                 |usados b0 banco linhas Hna Hgt Hl HR IH];
    intros i b Hb; [done|..].
  all: destruct i as [|i]; simpl in Hb.
  all: try (injection Hb as ->; eexists usados, _, _; split; [done|]; split;
      [ first [ by apply Rastro_invalido; [|constructor]
              | by apply Rastro_entrada; [| |constructor]
              | by eapply Rastro_conciliado; [| | | |constructor]
              | by apply Rastro_nao_conciliado; [| | |constructor] ]
      | intros j; split; [by left|]; intros [|(i' & ? & ? & _)]; [done|lia] ]).
  all: destruct (IH _ _ Hb) as (usados_i & r & l & Hlk & Hstep & Hmem);
      exists usados_i, r, l; split; [done|]; split; [done|];
      intros j; etrans; [apply Hmem|]; clear Hmem.
  all: split.
  all: try (intros [?|(i' & l' & ? & ?)];
            [by left|right; exists (S i'), l'; split; [lia|done]]).
  all: try (intros [?|([|i'] & l' & ? & Hi')];
            [by left|by simpl in Hi'|right; exists i', l'; split; [lia|done]]).
  - intros [[->|?]%elem_of_cons|(i' & l' & ? & ?)].
    + right. exists 0, (com_erp e (linha_inicial b0)). split; [lia|done].
    + by left.
    + right. exists (S i'), l'. split; [lia|done].
  - intros [?|([|i'] & l' & ? & Hi')]; try simpl in Hi'.
    + left. apply elem_of_cons. by right.
    + injection Hi' as -> _. left. apply elem_of_cons. by left.
    + right. exists i', l'. split; [lia|done].
Qed.

(** The possible shapes of the row appended by one iteration. *)
Lemma Rastro_uma erp usados b r l :
  Rastro erp usados [b] [(r, l)] →
  (r = None ∧ sem_match l ∧
     (isna (b_Valor b) = true ∧ Status l = ZeroOuInvalido
      ∨ isna (b_Valor b) = false ∧ gt0 (b_Valor b) = true ∧
        Status l = EntradaNoBanco
      ∨ isna (b_Valor b) = false ∧ gt0 (b_Valor b) = false ∧
        livres erp usados (abs (b_Valor b)) = [] ∧
        Status l = NaoConciliado))
  ∨ (∃ idx_erp resto e,
       r = Some idx_erp ∧ l = com_erp e (linha_inicial b) ∧
       isna (b_Valor b) = false ∧ gt0 (b_Valor b) = false ∧
       livres erp usados (abs (b_Valor b)) = idx_erp :: resto ∧
       erp !! idx_erp = Some e).
Proof.
  inversion 1; subst; unfold sem_match; simpl.
  - left. split_and!; try done. by left.
  - left. split_and!; try done. right; by left.
  - right. eauto 10.
  - left. split_and!; try done. right; by right.
Qed.

Lemma Rastro_uma_banco erp usados b r l :
  Rastro erp usados [b] [(r, l)] →
  Data_Banco l = b_Data b ∧ Valor_Banco l = b_Valor b ∧
  Tipo_Banco l = b_Tipo b ∧ Protocolo_Banco l = b_Protocolo b.
Proof. by inversion 1. Qed.

(** ** The claims on [conciliar_linha_a_linha] *)

(** C1: for every bank frame and every ERP frame the matcher returns
    (it does not raise) exactly one row per bank row, in the same order:
    the output has the length of the bank input and row [i] carries the
    date, amount, type and protocol of bank row [i]. *)
Theorem conciliar_uma_linha_por_linha_do_banco banco erp :
  ∃ linhas,
    conciliar_linha_a_linha banco erp = Some linhas ∧
    length linhas = length banco ∧
    ∀ i b, banco !! i = Some b →
      ∃ l, linhas !! i = Some l ∧
           Data_Banco l = b_Data b ∧ Valor_Banco l = b_Valor b ∧
           Tipo_Banco l = b_Tipo b ∧ Protocolo_Banco l = b_Protocolo b.
Proof.
  destruct (conciliar_rastro_total banco erp) as (rastro & Hr & HR).
  exists (snd <$> rastro). unfold conciliar_linha_a_linha. rewrite Hr.
  split; [done|]. split.
  - rewrite length_fmap. by eapply Rastro_length.
  - intros i b Hb.
    destruct (Rastro_linha _ _ _ _ HR i b Hb) as (u & r & l & Hl & Huma & _).
    exists l. rewrite list_lookup_fmap, Hl. split; [done|].
    by eapply Rastro_uma_banco.
Qed.

(** One iteration that pops [idx_erp], run on an index whose queues are
    the unconsumed candidates: [idx_erp] was not consumed before, and it
    is in no queue afterwards. *)
Lemma passo_consome erp usados index_por_valor b index' idx_erp l :
  inv_index erp usados index_por_valor →
  passo erp index_por_valor b = Some (index', Some idx_erp, l) →
  (idx_erp ∉ usados) ∧
  inv_index erp (idx_erp :: usados) index' ∧
  ∀ k, idx_erp ∉ default [] (index' !! k).
Proof.
  intros Hinv. unfold passo.
  destruct (isna (b_Valor b)); [done|].
  destruct (gt0 (b_Valor b)); [done|].
  rewrite Hinv.
  destruct (livres erp usados (abs (b_Valor b))) as [|j resto] eqn:Hl; [done|].
  simpl. destruct (erp !! j) as [e|]; [|done]. simpl. intros [= <- <- _].
  pose proof (inv_index_pop _ _ _ _ _ _ Hinv Hl) as Hinv'.
  split_and!; [|done|].
  - unfold livres in Hl. by apply filter_seq_head in Hl as ([_ ?] & _).
  - intros k. rewrite Hinv'. unfold livres.
    rewrite list_elem_of_filter, not_elem_of_cons. tauto.
Qed.

(** C2: each ERP row is consumed by at most one bank row: the index
    popped for an output row is never the index popped for another
    output row. The queues start as the candidates in ERP order, none
    consumed, and an iteration that pops an index leaves it in no queue,
    so a later bank row of the same amount cannot get it again. *)
Theorem erp_consumido_no_maximo_uma_vez banco erp :
  (∃ rastro,
     conciliar_rastro banco erp = Some rastro ∧
     ∀ i1 i2 idx_erp l1 l2,
       rastro !! i1 = Some (Some idx_erp, l1) →
       rastro !! i2 = Some (Some idx_erp, l2) →
       i1 = i2) ∧
  inv_index erp [] (indexar erp) ∧
  (∀ usados index_por_valor b index' idx_erp l,
     inv_index erp usados index_por_valor →
     passo erp index_por_valor b = Some (index', Some idx_erp, l) →
     (idx_erp ∉ usados) ∧
     inv_index erp (idx_erp :: usados) index' ∧
     ∀ k, idx_erp ∉ default [] (index' !! k)).
Proof.
  split; [|split; [apply indexar_inv|apply passo_consome]].
  destruct (conciliar_rastro_total banco erp) as (rastro & Hr & HR).
  exists rastro. split; [done|].
  assert (∀ i1 i2 idx_erp l1 l2, i1 < i2 →
            rastro !! i1 = Some (Some idx_erp, l1) →
            rastro !! i2 = Some (Some idx_erp, l2) → False) as Hlt.
  { intros i1 i2 j l1 l2 Hlt H1 H2.
    assert (is_Some (banco !! i2)) as [b2 Hb2].
    { apply lookup_lt_is_Some. rewrite <- (Rastro_length _ _ _ _ HR).
      by eapply lookup_lt_Some. }
    destruct (Rastro_linha _ _ _ _ HR i2 b2 Hb2) as (u & r & l & Hl & Huma & Hmem).
    rewrite H2 in Hl. injection Hl as <- <-.
    apply Rastro_uma in Huma as [[? _]|(j' & resto & e & [= <-] & _ & _ & _ & Hliv & _)];
      [done|].
    apply filter_seq_head in Hliv as ([_ Hnot] & _).
    apply Hnot, Hmem. right. eauto. }
  intros i1 i2 j l1 l2 H1 H2.
  destruct (Nat.lt_trichotomy i1 i2) as [?|[?|?]]; [|done|]; exfalso; eauto.
Qed.

Lemma rastro_banco_lookup erp usados banco rastro i x :
  Rastro erp usados banco rastro → rastro !! i = Some x → is_Some (banco !! i).
Proof.
  intros HR Hx. apply lookup_lt_is_Some. rewrite <- (Rastro_length _ _ _ _ HR).
  by eapply lookup_lt_Some.
Qed.

(** C3: in every output row whose status is Conciliado the ERP amount
    written in the row is exactly the absolute value of the bank amount
    of the row (equal as values, hence also under [==]; no tolerance, no
    rounding), and the three match fields are those of the ERP row that
    the iteration popped. *)
Theorem conciliado_valor_exato banco erp :
  ∃ rastro,
    conciliar_rastro banco erp = Some rastro ∧
    ∀ i r l, rastro !! i = Some (r, l) → Status l = Conciliado →
      Valor_ERP l = Some (abs (Valor_Banco l)) ∧
      ∃ idx_erp e,
        r = Some idx_erp ∧ erp !! idx_erp = Some e ∧
        Data_ERP_Quitacao l = e_Quitacao e ∧
        Valor_ERP l = Some (e_Valor e) ∧
        Fornecedor_ERP l = e_Fornecedor e ∧
        eqb (e_Valor e) (abs (Valor_Banco l)) = true.
Proof.
  destruct (conciliar_rastro_total banco erp) as (rastro & Hr & HR).
  exists rastro. split; [done|]. intros i r l Hl Hst.
  destruct (rastro_banco_lookup _ _ _ _ _ _ HR Hl) as [b Hb].
  destruct (Rastro_linha _ _ _ _ HR i b Hb) as (u & r' & l' & Hl' & Huma & _).
  rewrite Hl in Hl'. injection Hl' as <- <-.
  apply Rastro_uma in Huma
    as [(_ & _ & [[_ Hs]|[(_ & _ & Hs)|(_ & _ & _ & Hs)]])
       |(j & resto & e & -> & -> & _ & _ & Hliv & He)];
    [by rewrite Hs in Hst..|].
  destruct (livres_lookup _ _ _ _ _ Hliv) as (e' & He' & Hg & Hv).
  rewrite He in He'. injection He' as <-. simpl.
  split; [by rewrite Hv|]. exists j, e. split_and!; try done.
  by apply eqb_gt0_eq.
Qed.

(** C4: ERP rows of the same positive amount are consumed in their
    original order: the index popped for an output row is a candidate
    for the absolute bank amount of the row, and every candidate listed
    before it was popped for an earlier output row. In particular, with
    ERP amounts [100; 100] and bank amounts [-100; -100], row 0 pops
    index 0 and row 1 pops index 1. *)
Theorem candidatos_em_ordem_fifo :
  (∀ banco erp, ∃ rastro,
     conciliar_rastro banco erp = Some rastro ∧
     ∀ i idx_erp l, rastro !! i = Some (Some idx_erp, l) →
       elegivel erp (abs (Valor_Banco l)) idx_erp = true ∧
       ∀ j, j < idx_erp → elegivel erp (abs (Valor_Banco l)) j = true →
         ∃ i' l', i' < i ∧ rastro !! i' = Some (Some j, l')) ∧
  (∀ t0 p0 d0 t1 p1 d1 q0 f0 q1 f1,
     (λ rastro : list (option nat * Linha), rastro.*1) <$>
       conciliar_rastro
         [MkLinhaBanco t0 p0 d0 menos_cem; MkLinhaBanco t1 p1 d1 menos_cem]
         [MkLinhaErp q0 cem f0; MkLinhaErp q1 cem f1]
     = Some [Some 0; Some 1]).
Proof.
  split; [|intros; by vm_compute].
  intros banco erp.
  destruct (conciliar_rastro_total banco erp) as (rastro & Hr & HR).
  exists rastro. split; [done|]. intros i j l Hl.
  destruct (rastro_banco_lookup _ _ _ _ _ _ HR Hl) as [b Hb].
  destruct (Rastro_linha _ _ _ _ HR i b Hb) as (u & r' & l' & Hl' & Huma & Hmem).
  rewrite Hl in Hl'. injection Hl' as <- <-.
  apply Rastro_uma in Huma
    as [[? _]|(j0 & resto & e & [= <-] & -> & _ & _ & Hliv & He)]; [done|].
  simpl. apply filter_seq_head in Hliv as ([Hel _] & _ & Hmin).
  split; [done|]. intros j' Hlt Hel'.
  destruct (decide (j' ∈ u)) as [Hin|Hout].
  - apply Hmem in Hin as [Hin|?]; [|done]. by apply not_elem_of_nil in Hin.
  - destruct (Hmin j'); [lia|done].
Qed.

(** One ERP row of 100 for two bank rows of -100: the first takes it. *)
Example esgotamento :
  (λ linhas : list Linha, Status <$> linhas) <$>
    conciliar_linha_a_linha
      [MkLinhaBanco Nulo Nulo None menos_cem; MkLinhaBanco Nulo Nulo None menos_cem]
      [MkLinhaErp None cem (Str "ACME")]
  = Some [Conciliado; NaoConciliado].
Proof. by vm_compute. Qed.

(** C5: a bank row whose amount is present and strictly positive gets the
    status Entrada no Banco; the iteration attempts no match: it pops no
    index, leaves [index_por_valor] as it found it whatever it holds, and
    the match fields of the row stay unpopulated. ([v > 0] already
    excludes NaN, see [gt0_not_nan].) *)
Theorem entrada_no_banco_sem_match banco erp i b :
  banco !! i = Some b →
  gt0 (b_Valor b) = true →
  ∃ rastro l,
    conciliar_rastro banco erp = Some rastro ∧
    rastro !! i = Some (None, l) ∧
    Status l = EntradaNoBanco ∧ sem_match l ∧
    ∀ index_por_valor,
      passo erp index_por_valor b = Some (index_por_valor, None, l).
Proof.
  intros Hb Hgt. pose proof (gt0_not_nan _ Hgt) as Hna.
  destruct (conciliar_rastro_total banco erp) as (rastro & Hr & HR).
  destruct (Rastro_linha _ _ _ _ HR i b Hb) as (u & r & l & Hl & Huma & _).
  exists rastro, l. split; [done|].
  inversion Huma; subst; try congruence.
  split_and!; try done. intros index_por_valor.
  unfold passo. by rewrite Hna, Hgt.
Qed.

Lemma entrada_no_banco_sem_match_witness :
  let b := MkLinhaBanco (Str "PIX") Nulo (Some 0%Z) cem in
  let erp := [MkLinhaErp None cem (Str "ACME")] in
  [b] !! 0 = Some b ∧ gt0 (b_Valor b) = true ∧
  ∃ rastro l,
    conciliar_rastro [b] erp = Some rastro ∧
    rastro !! 0 = Some (None, l) ∧
    Status l = EntradaNoBanco ∧ sem_match l ∧
    ∀ index_por_valor,
      passo erp index_por_valor b = Some (index_por_valor, None, l).
Proof.
  intros b erp. split; [reflexivity|]. split; [reflexivity|].
  apply (entrada_no_banco_sem_match [b] erp 0 b); reflexivity.
Defined.

(** C6: a bank row whose amount is the NaN left by a failed parse gets
    the status Zero ou inválido; the run does not raise, the iteration
    pops no index, leaves [index_por_valor] as it found it, and the match
    fields of the row stay unpopulated. *)
Theorem valor_invalido_sem_match banco erp i b :
  banco !! i = Some b →
  isna (b_Valor b) = true →
  ∃ rastro l,
    conciliar_rastro banco erp = Some rastro ∧
    rastro !! i = Some (None, l) ∧
    Status l = ZeroOuInvalido ∧ sem_match l ∧
    ∀ index_por_valor,
      passo erp index_por_valor b = Some (index_por_valor, None, l).
Proof.
  intros Hb Hna.
  destruct (conciliar_rastro_total banco erp) as (rastro & Hr & HR).
  destruct (Rastro_linha _ _ _ _ HR i b Hb) as (u & r & l & Hl & Huma & _).
  exists rastro, l. split; [done|].
  inversion Huma; subst; try congruence.
  split_and!; try done. intros index_por_valor.
  unfold passo. by rewrite Hna.
Qed.

Lemma valor_invalido_sem_match_witness :
  let b := MkLinhaBanco (Str "TED") (Str "77") None S754_nan in
  let erp := [MkLinhaErp None cem (Str "ACME")] in
  [b] !! 0 = Some b ∧ isna (b_Valor b) = true ∧
  ∃ rastro l,
    conciliar_rastro [b] erp = Some rastro ∧
    rastro !! 0 = Some (None, l) ∧
    Status l = ZeroOuInvalido ∧ sem_match l ∧
    ∀ index_por_valor,
      passo erp index_por_valor b = Some (index_por_valor, None, l).
Proof.
  intros b erp. split; [reflexivity|]. split; [reflexivity|].
  apply (valor_invalido_sem_match [b] erp 0 b); reflexivity.
Defined.

(** No ERP row is a candidate for the amount zero. *)
Lemma livres_zero erp usados s : livres erp usados (abs (S754_zero s)) = [].
Proof.
  destruct (livres erp usados (abs (S754_zero s))) as [|j resto] eqn:Hl; [done|].
  apply filter_seq_head in Hl as ([Hel _] & _). by apply elegivel_gt0 in Hel.
Qed.

(** C10: a bank row whose amount is exactly 0 (either zero of float64,
    not NaN) gets, whatever the ERP frame, the status Não conciliado with
    no match field populated: the queue looked up for the absolute value
    0 is empty at indexing time and stays so, as only amounts above 0 are
    indexed; the row is thus never Conciliado. *)
Theorem valor_zero_nao_conciliado banco erp i b :
  banco !! i = Some b →
  eqb (b_Valor b) zero = true →
  ∃ rastro l,
    conciliar_rastro banco erp = Some rastro ∧
    rastro !! i = Some (None, l) ∧
    Status l = NaoConciliado ∧ Status l ≠ Conciliado ∧ sem_match l ∧
    default [] (indexar erp !! abs (b_Valor b)) = [] ∧
    ∀ usados, livres erp usados (abs (b_Valor b)) = [].
Proof.
  intros Hb [s Hz]%eqb_zero.
  destruct (conciliar_rastro_total banco erp) as (rastro & Hr & HR).
  destruct (Rastro_linha _ _ _ _ HR i b Hb) as (u & r & l & Hl & Huma & _).
  exists rastro, l. split; [done|].
  assert (∀ usados, livres erp usados (abs (b_Valor b)) = []) as Hvazio.
  { intros usados. rewrite Hz. apply livres_zero. }
  inversion Huma as [|? ? ? ? Hna|? ? ? ? Hna Hgt| |]; subst;
    try (by rewrite Hz in Hna); try (by rewrite Hz in Hgt); try congruence.
  split_and!; try done. by rewrite indexar_inv.
Qed.

Lemma valor_zero_nao_conciliado_witness :
  let b := MkLinhaBanco Nulo Nulo None (S754_zero true) in
  let erp := [MkLinhaErp None cem Nulo; MkLinhaErp None zero Nulo] in
  [b] !! 0 = Some b ∧ eqb (b_Valor b) zero = true ∧
  ∃ rastro l,
    conciliar_rastro [b] erp = Some rastro ∧
    rastro !! 0 = Some (None, l) ∧
    Status l = NaoConciliado ∧ Status l ≠ Conciliado ∧ sem_match l ∧
    default [] (indexar erp !! abs (b_Valor b)) = [] ∧
    ∀ usados, livres erp usados (abs (b_Valor b)) = [].
Proof.
  intros b erp. split; [reflexivity|]. split; [reflexivity|].
  apply (valor_zero_nao_conciliado [b] erp 0 b); reflexivity.
Defined.

(** ** Facts on the readers *)

Import Leitura Planilhas.

Lemma so_espacos_inicio c s :
  so_espacos (String c s) = true → inicio_de_branco c = true.
Proof.
  unfold inicio_de_branco. cbn [so_espacos].
  destruct (isspace c); [done|]. simpl.
  destruct s as [|c2 [|c3 s3]]; try done.
  - unfold branco2. cbv zeta.
    destruct (Nat.eqb_spec (codigo c) 194) as [->|]; simpl; done.
  - unfold branco2, branco3. cbv zeta.
    destruct (Nat.eqb_spec (codigo c) 194) as [->|]; [done|]. simpl.
    destruct (Nat.eqb_spec (codigo c) 225) as [->|]; [done|].
    destruct (Nat.eqb_spec (codigo c) 226) as [->|]; [done|].
    destruct (Nat.eqb_spec (codigo c) 227) as [->|]; [done|]. done.
Qed.

Lemma lstrip_inicio c s :
  inicio_de_branco c = false → lstrip (String c s) = String c s.
Proof.
  unfold inicio_de_branco. cbv zeta.
  intros [Hsp Hn]%orb_false_iff. cbn [lstrip]. rewrite Hsp.
  apply orb_false_iff in Hn as [H194 H22x].
  destruct s as [|c2 [|c3 s3]]; try done.
  - unfold branco2. cbv zeta. by rewrite H194.
  - unfold branco2, branco3. cbv zeta. rewrite H194. simpl.
    destruct (Nat.eqb_spec (codigo c) 225) as [Heq|];
      [by rewrite Heq in H22x|].
    destruct (Nat.eqb_spec (codigo c) 226) as [Heq|];
      [by rewrite Heq in H22x|].
    destruct (Nat.eqb_spec (codigo c) 227) as [Heq|];
      [by rewrite Heq in H22x|]. done.
Qed.

Lemma append_String c s t : String c s +:+ t = String c (s +:+ t).
Proof. reflexivity. Qed.

Lemma lstrip_espacos pre s :
  so_espacos pre = true → lstrip (pre +:+ s) = lstrip s.
Proof.
  assert (∀ n pre, (String.length pre <= n)%nat → so_espacos pre = true →
                   lstrip (pre +:+ s) = lstrip s) as Haux;
    [|by apply (Haux (String.length pre))].
  clear pre. intros n. induction n as [|n IH]; intros pre Hn.
  { destruct pre; [done|simpl in Hn; lia]. }
  destruct pre as [|c1 s1]; [done|]. simpl in Hn.
  rewrite ?append_String; cbn [so_espacos lstrip].
  destruct (isspace c1); [intros; apply (IH s1); [lia|done]|].
  destruct s1 as [|c2 s2]; [done|]. simpl in Hn.
  rewrite ?append_String; cbn [so_espacos lstrip].
  destruct (branco2 c1 c2); [intros; apply (IH s2); [lia|done]|].
  destruct s2 as [|c3 s3]; [done|]. simpl in Hn.
  rewrite ?append_String; cbn [so_espacos lstrip].
  intros [-> H3]%andb_true_iff. apply (IH s3); [lia|done].
Qed.

Lemma rstrip_so_espacos pos : so_espacos pos = true → rstrip pos = "".
Proof. destruct pos as [|c pos]; [done|]. intros H. cbn [rstrip]. by rewrite H. Qed.

Lemma rstrip_app_espacos r pos :
  sem_branco r = true → so_espacos pos = true → rstrip (r +:+ pos) = r.
Proof.
  intros Hr Hpos. induction r as [|c r IH].
  - by apply rstrip_so_espacos.
  - simpl in Hr. apply andb_true_iff in Hr as [Hc Hr].
    change (String c r +:+ pos) with (String c (r +:+ pos)). cbn [rstrip].
    destruct (so_espacos (String c (r +:+ pos))) eqn:Hs.
    + apply so_espacos_inicio in Hs. by rewrite Hs in Hc.
    + by rewrite IH.
Qed.

(** Blanks around a name no byte of which can start a blank are what
    [strip] removes. *)
Lemma strip_margens pre r pos :
  so_espacos pre = true → so_espacos pos = true →
  r ≠ "" → sem_branco r = true →
  strip (pre +:+ r +:+ pos) = r.
Proof.
  intros Hpre Hpos Hne Hr. unfold strip. rewrite lstrip_espacos by done.
  destruct r as [|c r]; [done|].
  change (String c r +:+ pos) with (String c (r +:+ pos)).
  rewrite lstrip_inicio.
  - by apply (rstrip_app_espacos (String c r)).
  - simpl in Hr. apply andb_true_iff in Hr as [Hc _]. by destruct (inicio_de_branco c).
Qed.

Lemma lstrip_prefixo s : ∃ pre, so_espacos pre = true ∧ s = pre +:+ lstrip s.
Proof.
  assert (∀ n s, (String.length s <= n)%nat →
                 ∃ pre, so_espacos pre = true ∧ s = pre +:+ lstrip s) as Haux;
    [|by apply (Haux (String.length s))].
  clear s. induction n as [|n IH]; intros s Hn.
  { destruct s; [by exists ""|simpl in Hn; lia]. }
  destruct s as [|c1 s1]; [by exists ""|]. simpl in Hn.
  cbn [lstrip]. destruct (isspace c1) eqn:H1.
  { destruct (IH s1) as (pre & Hpre & Hs); [lia|].
    exists (String c1 pre). split; [cbn [so_espacos]; by rewrite H1|].
    rewrite append_String. by f_equal. }
  destruct s1 as [|c2 s2]; [by exists ""|]. simpl in Hn.
  destruct (branco2 c1 c2) eqn:H2.
  { destruct (IH s2) as (pre & Hpre & Hs); [lia|].
    exists (String c1 (String c2 pre)).
    split; [cbn [so_espacos]; by rewrite H1, H2|].
    rewrite !append_String. by do 2 f_equal. }
  destruct s2 as [|c3 s3]; [by exists ""|]. simpl in Hn.
  destruct (branco3 c1 c2 c3) eqn:H3; [|by exists ""].
  destruct (IH s3) as (pre & Hpre & Hs); [lia|].
  exists (String c1 (String c2 (String c3 pre))).
  split; [cbn [so_espacos]; by rewrite H1, H2, H3|].
  rewrite !append_String. by do 3 f_equal.
Qed.

Lemma rstrip_sufixo s : ∃ pos, so_espacos pos = true ∧ s = rstrip s +:+ pos.
Proof.
  induction s as [|c s IH]; [by exists ""|].
  cbn [rstrip]. destruct (so_espacos (String c s)) eqn:Hs.
  - by exists (String c s).
  - destruct IH as (pos & Hpos & Heq). exists pos. split; [done|].
    rewrite append_String. by f_equal.
Qed.

(** [strip] removes blanks and nothing else. *)
Lemma strip_entre_brancos s :
  ∃ pre pos, so_espacos pre = true ∧ so_espacos pos = true ∧
             s = pre +:+ strip s +:+ pos.
Proof.
  destruct (lstrip_prefixo s) as (pre & Hpre & Hs).
  destruct (rstrip_sufixo (lstrip s)) as (pos & Hpos & Hl).
  exists pre, pos. split_and!; [done..|]. unfold strip. by rewrite <- Hl.
Qed.

Lemma cols_fold_is_Some (l : list string) (m : gmap string string) k :
  is_Some (foldl (λ cols c, <[strip c := c]> cols) m l !! k) ↔
  is_Some (m !! k) ∨ k ∈ strip <$> l.
Proof.
  revert m. induction l as [|c l IH]; intros m; simpl.
  - split; [by left|]. intros [?|Hin]; [done|]. by apply not_elem_of_nil in Hin.
  - rewrite IH, lookup_insert_is_Some, elem_of_cons.
    destruct (decide (strip c = k)) as [<-|Hne].
    + split; intros _; [right; by left|left; by left].
    + assert (k ≠ strip c) by congruence. tauto.
Qed.

Lemma cols_fold_valor (l : list string) (m : gmap string string) k c :
  foldl (λ cols c, <[strip c := c]> cols) m l !! k = Some c →
  m !! k = Some c ∨ c ∈ l.
Proof.
  revert m. induction l as [|c' l IH]; intros m; simpl; [by left|].
  intros [Hm|Hin]%IH; [|right; by right].
  apply lookup_insert_Some in Hm as [[_ <-]|[_ ?]]; [right; by left|by left].
Qed.

(** A stripped name is a key of [cols] exactly when a header strips to it. *)
Lemma cols_de_is_Some df k :
  is_Some (cols_de df !! k) ↔ k ∈ strip <$> columns df.
Proof.
  unfold cols_de. rewrite cols_fold_is_Some, lookup_empty.
  split; [|by right]. intros [[? [=]]|?]; done.
Qed.

Lemma coluna_de_ok df nome :
  is_Some (cols_de df !! nome) → ∃ serie, coluna_de df (cols_de df) nome = Ok serie.
Proof.
  intros [c Hc]. unfold coluna_de, coluna. rewrite Hc.
  apply cols_fold_valor in Hc as [Hc|Hc]; [by rewrite lookup_empty in Hc|].
  destruct (list_find_elem_of (λ h, h = c) _ c Hc eq_refl) as [[pos h] ->].
  eauto.
Qed.

Lemma faltando_de_elem obrig (cols : gmap string string) c :
  c ∈ faltando_de obrig cols ↔ c ∈ obrig ∧ cols !! c = None.
Proof. unfold faltando_de. rewrite list_elem_of_filter. tauto. Qed.

Lemma faltando_de_nil obrig (cols : gmap string string) :
  faltando_de obrig cols = [] ↔ ∀ c, c ∈ obrig → is_Some (cols !! c).
Proof.
  split.
  - intros Hnil c Hc. destruct (cols !! c) eqn:Hl; [done|].
    assert (c ∈ faltando_de obrig cols) as Hin by by apply faltando_de_elem.
    rewrite Hnil in Hin. by apply not_elem_of_nil in Hin.
  - intros Hall. destruct (faltando_de obrig cols) as [|c l] eqn:Hf; [done|].
    assert (c ∈ faltando_de obrig cols) as [Hc Hn]%faltando_de_elem
      by (rewrite Hf; by left).
    destruct (Hall c Hc) as [? ?]. congruence.
Qed.

(** What a reader raises is decided by the headers alone: nothing when
    no required column is missing, the [ValueError] otherwise. *)
Lemma excecao_leitura_eq to_datetime p df :
  excecao_leitura to_datetime p df =
  match faltando_de (obrig_de p) (cols_de df) with
  | [] => None
  | faltando => Some (ValueError (texto_de p) faltando (columns df))
  end.
Proof.
  destruct p; simpl; unfold ler_excel_banco, ler_excel_conexa.
  - destruct (faltando_de obrig_banco (cols_de df)) as [|c l] eqn:Hf; [|done].
    pose proof (proj1 (faltando_de_nil _ _) Hf) as Hall.
    destruct (coluna_de_ok df "Data") as [data ->]; [apply Hall; set_solver|].
    destruct (coluna_de_ok df "Valor") as [valor ->]; [apply Hall; set_solver|].
    repeat case_decide;
      repeat match goal with
             | H : is_Some (cols_de df !! ?n) |- context [coluna_de df _ ?n] =>
                 destruct (coluna_de_ok df n H) as [? ->]
             end; done.
  - destruct (faltando_de obrig_conexa (cols_de df)) as [|c l] eqn:Hf; [|done].
    pose proof (proj1 (faltando_de_nil _ _) Hf) as Hall.
    destruct (coluna_de_ok df "Quitação") as [data ->]; [apply Hall; set_solver|].
    destruct (coluna_de_ok df "Valor") as [valor ->]; [apply Hall; set_solver|].
    simpl. case_decide; [|done].
    destruct (coluna_de_ok df "Fornecedor") as [? ->]; done.
Qed.

(** ** The claims on the readers *)

(** On a frame whose labels are texts, a reader raises exactly when a
    required column is not among the stripped headers; the exception is
    the [ValueError] listing the missing required columns and the
    headers found, and it does not depend on the rows. *)
Lemma excecao_leitura_colunas to_datetime p df :
  ((∃ c, c ∈ obrig_de p ∧ c ∉ strip <$> columns df) ↔
     is_Some (excecao_leitura to_datetime p df)) ∧
  ∀ e, excecao_leitura to_datetime p df = Some e →
    ∃ faltando,
      e = ValueError (texto_de p) faltando (columns df) ∧
      (∀ c, c ∈ faltando ↔ c ∈ obrig_de p ∧ c ∉ strip <$> columns df) ∧
      ∀ linhas,
        excecao_leitura to_datetime p (MkDataFrame (columns df) linhas) = Some e.
Proof.
  assert (∀ c, c ∈ faltando_de (obrig_de p) (cols_de df) ↔
               c ∈ obrig_de p ∧ c ∉ strip <$> columns df) as Hfalt.
  { intros c. rewrite faltando_de_elem, <- cols_de_is_Some.
    by rewrite eq_None_not_Some. }
  split.
  - rewrite excecao_leitura_eq.
    destruct (faltando_de (obrig_de p) (cols_de df)) as [|c l] eqn:Hf.
    + split; [|by intros [? [=]]]. intros (c & Hc%Hfalt).
      by apply not_elem_of_nil in Hc.
    + split; [by eauto|]. intros _. exists c. apply Hfalt. by left.
  - intros e. rewrite excecao_leitura_eq.
    destruct (faltando_de (obrig_de p) (cols_de df)) as [|c l] eqn:Hf; [done|].
    intros [= <-]. exists (c :: l). split_and!; [done|done|].
    intros linhas. rewrite excecao_leitura_eq. unfold cols_de in *. simpl.
    by rewrite Hf.
Qed.


Lemma excecao_planilha_textos to_datetime p pl textos :
  textos_de (rotulos pl) = Some textos →
  excecao_planilha to_datetime p pl =
  excecao_leitura to_datetime p (MkDataFrame textos (linhas_lidas pl)).
Proof.
  intros Ht. unfold excecao_planilha, ler_excel_banco_planilha,
    ler_excel_conexa_planilha. rewrite Ht. by destruct p.
Qed.

(** C7, as the code has it. When every label of the sheet is a text, a
    reader raises exactly when a required column (bank: Data, Valor;
    ERP: Quitação, Valor) is not among the stripped headers, and this
    is the only exception it raises; the exception is the [ValueError]
    whose message lists every missing required column and all the
    headers found, and it depends on no row: the same exception is
    raised whatever the rows of the sheet are. When a label is not a
    text the reader raises [AttributeError] instead, whatever the
    columns are. *)
Theorem colunas_obrigatorias_faltando to_datetime p pl :
  match textos_de (rotulos pl) with
  | Some textos =>
      ((∃ c, c ∈ obrig_de p ∧ c ∉ strip <$> textos) ↔
         is_Some (excecao_planilha to_datetime p pl)) ∧
      ∀ e, excecao_planilha to_datetime p pl = Some e →
        ∃ faltando,
          e = ValueError (texto_de p) faltando textos ∧
          (∀ c, c ∈ faltando ↔ c ∈ obrig_de p ∧ c ∉ strip <$> textos) ∧
          ∀ linhas,
            excecao_planilha to_datetime p (MkPlanilha (rotulos pl) linhas)
            = Some e
  | None => excecao_planilha to_datetime p pl = Some AttributeError
  end.
Proof.
  destruct (textos_de (rotulos pl)) as [textos|] eqn:Ht.
  - rewrite (excecao_planilha_textos _ _ _ _ Ht).
    destruct (excecao_leitura_colunas to_datetime p
                (MkDataFrame textos (linhas_lidas pl))) as [Hiff Hval].
    split; [exact Hiff|]. intros e He.
    destruct (Hval e He) as (faltando & -> & Hfalt & Hlin).
    exists faltando. split_and!; [done..|]. intros linhas.
    rewrite (excecao_planilha_textos _ _ _ textos) by done. apply Hlin.
  - unfold excecao_planilha, ler_excel_banco_planilha,
      ler_excel_conexa_planilha. rewrite Ht. by destruct p.
Qed.

(** C7 as stated fails: a sheet with the two required columns and one
    header cell that holds a number makes the reader raise, and what it
    raises is [AttributeError], not the error of the missing columns;
    the same happens when a required column is missing too. *)
Lemma rotulo_numerico_levanta_attribute_error :
  let pl := MkPlanilha [Texto "Data"; Texto "Valor"; NaoTexto 2024]
              [[Str "02/01/2024"; Str "-100"; Str "5"]] in
  let pl' := MkPlanilha [Texto "Data"; NaoTexto 2024]
               [[Str "02/01/2024"; Str "5"]] in
  (∀ c, c ∈ obrig_de Banco → Texto c ∈ rotulos pl) ∧
  ler_excel_banco_planilha sem_datas pl = Raise AttributeError ∧
  ler_excel_banco_planilha sem_datas pl' = Raise AttributeError.
Proof.
  split; [|split; reflexivity].
  intros c [->|[->|Hc]%elem_of_cons]%elem_of_cons.
  - by left.
  - right; by left.
  - by apply not_elem_of_nil in Hc.
Qed.

(** A sheet of texts without a required column, and one with a blank
    outside ASCII around a required name. *)
Example planilha_sem_valor to_datetime linhas :
  ler_excel_banco_planilha to_datetime
    (MkPlanilha [Texto "Tipo"; Texto "Data"; Texto "Saldo"] linhas)
  = Raise (ValueError texto_banco ["Valor"] ["Tipo"; "Data"; "Saldo"]).
Proof. reflexivity. Qed.

Example planilha_com_nbsp :
  strip ("Valor" +:+ nbsp) = "Valor" ∧
  excecao_planilha sem_datas Banco
    (MkPlanilha [Texto "Data"; Texto ("Valor" +:+ nbsp)] []) = None.
Proof. split; reflexivity. Qed.

(** The case of the bank sheet without its Valor column. *)
Example banco_sem_valor to_datetime linhas :
  ler_excel_banco to_datetime (MkDataFrame ["Tipo"; "Data"; "Saldo"] linhas)
  = Raise (ValueError texto_banco ["Valor"] ["Tipo"; "Data"; "Saldo"]).
Proof. reflexivity. Qed.

(** C8, as the code has it: with a comma as decimal separator and no
    thousands separator, "1234,56" becomes "1234.56" and reads as the
    float64 1234.56; "1.234,56" becomes "1.234.56", which is not a
    number, and reads as NaN. *)
Theorem valor_com_virgula_decimal :
  replace_virgula "1234,56" = "1234.56" ∧
  valor_da_celula (Str "1234,56") = v1234_56 ∧
  replace_virgula "1.234,56" = "1.234.56" ∧
  valor_da_celula (Str "1.234,56") = S754_nan.
Proof. by vm_compute. Qed.

(** C8 as stated fails: the cell "1.234,56" does not read as 1234.56,
    it reads as the missing value. *)
Lemma valor_com_milhar_vira_nan :
  valor_da_celula (Str "1.234,56") ≠ v1234_56 ∧
  isna (valor_da_celula (Str "1.234,56")) = true.
Proof. by vm_compute. Qed.

(** C9, as the code has it: the presence check ignores the blanks
    around a header (those of [str.strip], in ASCII and outside it) and
    nothing else. On a sheet whose labels are texts: if every required
    column has a header that is its exact name between blanks, the
    reader raises nothing; and a required name that no header holds
    between blanks, whatever headers are equal to it up to the case of
    the letters, is reported missing. *)
Theorem colunas_toleram_espacos to_datetime p pl textos :
  textos_de (rotulos pl) = Some textos →
  ((∀ r, r ∈ obrig_de p →
      ∃ pre pos, so_espacos pre = true ∧ so_espacos pos = true ∧
                 pre +:+ r +:+ pos ∈ textos) →
   excecao_planilha to_datetime p pl = None) ∧
  (∀ r, r ∈ obrig_de p →
     (∀ pre pos, so_espacos pre = true → so_espacos pos = true →
                 pre +:+ r +:+ pos ∉ textos) →
     ∃ faltando,
       excecao_planilha to_datetime p pl
       = Some (ValueError (texto_de p) faltando textos) ∧
       r ∈ faltando).
Proof.
  intros Ht. rewrite (excecao_planilha_textos _ _ _ _ Ht), excecao_leitura_eq.
  split.
  - intros Hcols. rewrite (proj2 (faltando_de_nil _ _)); [done|].
    intros r Hr. apply cols_de_is_Some. simpl.
    destruct (Hcols r Hr) as (pre & pos & Hpre & Hpos & Hin).
    apply list_elem_of_fmap. exists (pre +:+ r +:+ pos). split; [|done].
    symmetry.
    destruct p; simpl in Hr; unfold obrig_banco, obrig_conexa in Hr;
      apply elem_of_cons in Hr as [->|Hr];
      try (apply elem_of_cons in Hr as [->|Hr]);
      try (by apply not_elem_of_nil in Hr);
      by apply strip_margens.
  - intros r Hr Hnao.
    assert (r ∈ faltando_de (obrig_de p)
                  (cols_de (MkDataFrame textos (linhas_lidas pl)))) as Hin.
    { apply faltando_de_elem. split; [done|]. apply eq_None_not_Some.
      rewrite cols_de_is_Some. simpl.
      intros (c & Hc & Hcin)%list_elem_of_fmap.
      destruct (strip_entre_brancos c) as (pre & pos & Hpre & Hpos & Heq).
      apply (Hnao pre pos Hpre Hpos). by rewrite Hc, <- Heq. }
    destruct (faltando_de (obrig_de p)
                (cols_de (MkDataFrame textos (linhas_lidas pl))))
      as [|c l]; [by apply not_elem_of_nil in Hin|].
    by exists (c :: l).
Qed.

Lemma colunas_toleram_espacos_witness :
  let pl := MkPlanilha [Texto (nbsp +:+ " Data"); Texto ("Valor " +:+ nbsp);
                        Texto "quitação"]
              [[Str "02/01/2024"; Str "-10,5"; Nulo]] in
  let textos := [nbsp +:+ " Data"; "Valor " +:+ nbsp; "quitação"] in
  textos_de (rotulos pl) = Some textos ∧
  (∀ r, r ∈ obrig_de Banco →
     ∃ pre pos, so_espacos pre = true ∧ so_espacos pos = true ∧
                pre +:+ r +:+ pos ∈ textos) ∧
  excecao_planilha sem_datas Banco pl = None ∧
  (∀ pre pos, so_espacos pre = true → so_espacos pos = true →
              pre +:+ "Quitação" +:+ pos ∉ textos) ∧
  ∃ faltando,
    excecao_planilha sem_datas Conexa pl
    = Some (ValueError (texto_de Conexa) faltando textos) ∧
    "Quitação" ∈ faltando.
Proof.
  intros pl textos.
  assert (∀ r, r ∈ obrig_de Banco →
     ∃ pre pos, so_espacos pre = true ∧ so_espacos pos = true ∧
                pre +:+ r +:+ pos ∈ textos) as Hcols.
  { intros r [->|[->|Hr]%elem_of_cons]%elem_of_cons.
    - exists (nbsp +:+ " "), "". split_and!; [reflexivity..|]. by left.
    - exists "", (" " +:+ nbsp). split_and!; [reflexivity..|]. right; by left.
    - by apply not_elem_of_nil in Hr. }
  assert (∀ pre pos, so_espacos pre = true → so_espacos pos = true →
                     pre +:+ "Quitação" +:+ pos ∉ textos) as Hnao.
  { intros pre pos Hpre Hpos Hin.
    assert (strip (pre +:+ "Quitação" +:+ pos) = "Quitação") as Hs
      by (by apply strip_margens).
    apply elem_of_cons in Hin as [Hin|Hin];
      [|apply elem_of_cons in Hin as [Hin|Hin];
        [|apply elem_of_cons in Hin as [Hin|Hin];
          [|by apply not_elem_of_nil in Hin]]];
      rewrite Hin in Hs; by vm_compute in Hs. }
  split; [reflexivity|]. split; [exact Hcols|].
  split; [exact (proj1 (colunas_toleram_espacos sem_datas Banco pl textos eq_refl) Hcols)|].
  split; [exact Hnao|].
  apply (proj2 (colunas_toleram_espacos sem_datas Conexa pl textos eq_refl));
    [by left|exact Hnao].
Defined.

(** C9 as stated fails: a header that differs from the required name by
    letter case only is not found, and the reader raises. *)
Lemma presenca_sensivel_a_caixa :
  ¬ ∀ p df,
      (∀ r, r ∈ obrig_de p →
         ∃ c, c ∈ columns df ∧ lower (strip c) = lower r) →
      excecao_leitura sem_datas p df = None.
Proof.
  intros H. specialize (H Banco (MkDataFrame ["Data"; "valor"] [])).
  assert (excecao_leitura sem_datas Banco (MkDataFrame ["Data"; "valor"] [])
          = Some (ValueError texto_banco ["Valor"] ["Data"; "valor"])) as He
    by reflexivity.
  rewrite H in He; [done|].
  intros r [->|[->|Hr]%elem_of_cons]%elem_of_cons.
  - exists "Data". split; [by left|reflexivity].
  - exists "valor". split; [right; by left|reflexivity].
  - by apply not_elem_of_nil in Hr.
Qed.

(** A bank cell that is not a number goes through both stages without
    an exception and comes out as a Zero ou inválido row. *)
Example celula_invalida_vira_status :
  let df_banco := MkDataFrame ["Data"; "Valor"] [[Str "02/01/2024"; Str "R$ 10"]] in
  let df_erp := MkDataFrame ["Quitação"; "Valor"] [[Str "02/01/2024"; Str "10,00"]] in
  ∃ banco erp linhas,
    ler_excel_banco sem_datas df_banco = Ok banco ∧
    ler_excel_conexa sem_datas df_erp = Ok erp ∧
    b_Valor <$> banco = [S754_nan] ∧
    conciliar_linha_a_linha banco erp = Some linhas ∧
    Status <$> linhas = [ZeroOuInvalido].
Proof. do 3 eexists. by vm_compute. Qed.

(** * Further properties *)

(** ** The matcher *)

(** [Rastro] describes one output only. *)
Lemma Rastro_det erp usados banco linhas :
  Rastro erp usados banco linhas →
  ∀ linhas', Rastro erp usados banco linhas' → linhas = linhas'.
Proof.
  induction 1 as [usados|usados b banco linhas Hna HR IH
                 |usados b banco linhas Hna Hgt HR IH
                 |usados b banco linhas idx_erp resto e Hna Hgt Hl He HR IH
                 |usados b banco linhas Hna Hgt Hl HR IH];
    intros linhas' HR'; inversion HR'; subst; try congruence.
  - f_equal. by apply IH.
  - f_equal. by apply IH.
  - assert (idx_erp = idx_erp0) as <- by congruence.
    assert (e = e0) as <- by congruence. f_equal. by apply IH.
  - f_equal. by apply IH.
Qed.

(** The run is the output [Rastro] describes. *)
Lemma conciliar_rastro_Rastro banco erp rastro :
  conciliar_rastro banco erp = Some rastro ↔ Rastro erp [] banco rastro.
Proof.
  destruct (conciliar_rastro_total banco erp) as (rastro' & Hr & HR).
  split.
  - intros Hr'. rewrite Hr in Hr'. by injection Hr' as <-.
  - intros HR'. by rewrite (Rastro_det _ _ _ _ HR' _ HR).
Qed.

Lemma livres_cons_eq erp usados k j resto :
  livres erp usados k = j :: resto → livres erp (j :: usados) k = resto.
Proof.
  intros Hl. unfold livres in *.
  apply (filter_pop _ _ _ _ (NoDup_seq _ _)) in Hl. rewrite <- Hl.
  apply filter_elem_iff. intros i _. rewrite not_elem_of_cons. tauto.
Qed.

Lemma livres_cons_ne erp usados k k' j resto :
  livres erp usados k = j :: resto → k ≠ k' →
  livres erp (j :: usados) k' = livres erp usados k'.
Proof.
  intros Hl Hne. unfold livres in *.
  apply filter_seq_head in Hl as ([Hel _] & _ & _).
  apply filter_elem_iff. intros i _. rewrite not_elem_of_cons.
  split; [tauto|]. intros [Hi ?]. split_and!; try done.
  intros ->. apply Hne. eauto using elegivel_func.
Qed.

Import Principal Estilo Posicao Contagem.

(** X1: The four statuses follow the class of the bank amount: NaN, above
    zero, or neither; a row is Conciliado exactly when its iteration
    popped an ERP index, and a row that is not Conciliado has its match
    fields as created. The status is never left empty. *)
Theorem status_segue_o_valor banco erp :
  ∃ rastro,
    conciliar_rastro banco erp = Some rastro ∧
    ∀ i r l, rastro !! i = Some (r, l) →
      (Status l = ZeroOuInvalido ↔ isna (Valor_Banco l) = true) ∧
      (Status l = EntradaNoBanco ↔ gt0 (Valor_Banco l) = true) ∧
      (Status l = Conciliado ∨ Status l = NaoConciliado ↔
         debito (Valor_Banco l) = true) ∧
      (Status l = Conciliado ↔ is_Some r) ∧
      (Status l ≠ Conciliado → sem_match l).
Proof.
  destruct (conciliar_rastro_total banco erp) as (rastro & Hr & HR).
  exists rastro. split; [done|]. intros i r l Hl.
  destruct (rastro_banco_lookup _ _ _ _ _ _ HR Hl) as [b Hb].
  destruct (Rastro_linha _ _ _ _ HR i b Hb) as (u & r' & l' & Hl' & Huma & _).
  rewrite Hl in Hl'. injection Hl' as <- <-.
  destruct (Rastro_uma_banco _ _ _ _ _ Huma) as (_ & Hv & _).
  unfold debito. rewrite Hv.
  assert (is_Some (@None nat) → False) as HNone by by intros [? ?].
  apply Rastro_uma in Huma
    as [(-> & Hsem & [[Hna Hs]|[(Hna & Hgt & Hs)|(Hna & Hgt & _ & Hs)]])
       |(j & resto & e & -> & -> & Hna & Hgt & _)].
  - assert (gt0 (b_Valor b) = false) as Hgt by by destruct (b_Valor b).
    rewrite Hs, Hna, Hgt. simpl.
    split_and!; try done; split; try done; try (by intros [?|?]); tauto.
  - rewrite Hs, Hna, Hgt. simpl.
    split_and!; try done; split; try done; try (by intros [?|?]); tauto.
  - rewrite Hs, Hna, Hgt. simpl.
    split_and!; try done; split; try done; try (by intros [?|?]);
      try tauto; by right.
  - simpl. rewrite Hna, Hgt. simpl.
    split_and!; try done; split; try done; try (by intros [?|?]);
      try (by left); by eexists.
Qed.

(** X2: A row is left Não conciliado only when no candidate remains: every
    ERP row that is a candidate for the absolute bank amount of the row
    was popped for an earlier output row. *)
Theorem nao_conciliado_sem_candidato_livre banco erp :
  ∃ rastro,
    conciliar_rastro banco erp = Some rastro ∧
    ∀ i r l, rastro !! i = Some (r, l) → Status l = NaoConciliado →
      ∀ j, elegivel erp (abs (Valor_Banco l)) j = true →
        ∃ i' l', i' < i ∧ rastro !! i' = Some (Some j, l').
Proof.
  destruct (conciliar_rastro_total banco erp) as (rastro & Hr & HR).
  exists rastro. split; [done|]. intros i r l Hl Hst j Hel.
  destruct (rastro_banco_lookup _ _ _ _ _ _ HR Hl) as [b Hb].
  destruct (Rastro_linha _ _ _ _ HR i b Hb) as (u & r' & l' & Hl' & Huma & Hmem).
  rewrite Hl in Hl'. injection Hl' as <- <-.
  destruct (Rastro_uma_banco _ _ _ _ _ Huma) as (_ & Hv & _).
  rewrite Hv in Hel.
  apply Rastro_uma in Huma
    as [(_ & _ & [[_ Hs]|[(_ & _ & Hs)|(_ & _ & Hliv & _)]])
       |(? & ? & e & _ & -> & _)];
    [by rewrite Hs in Hst..| |done].
  destruct (decide (j ∈ u)) as [Hin|Hout].
  - apply Hmem in Hin as [Hin|?]; [|done]. by apply not_elem_of_nil in Hin.
  - exfalso. unfold livres in Hliv.
    apply (filter_nil_not_elem_of _ _ j Hliv (conj Hel Hout)), elem_of_seq. split; [lia|]. simpl.
    apply elegivel_spec in Hel as (e & He & _). by eapply lookup_lt_Some.
Qed.

Lemma Rastro_take erp usados banco linhas n :
  Rastro erp usados banco linhas →
  Rastro erp usados (take n banco) (take n linhas).
Proof.
  intros HR. revert n.
  induction HR; intros [|n]; simpl; try constructor; auto.
  by eapply Rastro_conciliado.
Qed.

(** X3: No backtracking: the rows produced for the first [n] bank rows do
    not depend on the bank rows that follow. Running the matcher on a
    prefix of the bank frame gives the same prefix of the output. *)
Theorem conciliar_prefixo banco erp n :
  conciliar_linha_a_linha (take n banco) erp =
  take n <$> conciliar_linha_a_linha banco erp.
Proof.
  destruct (conciliar_rastro_total banco erp) as (rastro & Hr & HR).
  apply (Rastro_take _ _ _ _ n), conciliar_rastro_Rastro in HR.
  unfold conciliar_linha_a_linha. rewrite Hr, HR. simpl.
  by rewrite fmap_take.
Qed.

Lemma Rastro_filter_debito erp usados banco linhas :
  Rastro erp usados banco linhas →
  Rastro erp usados
    (filter (λ b, debito (b_Valor b) = true) banco)
    (filter (λ x, debito (Valor_Banco x.2) = true) linhas).
Proof.
  induction 1 as [usados|usados b banco linhas Hna HR IH
                 |usados b banco linhas Hna Hgt HR IH
                 |usados b banco linhas idx_erp resto e Hna Hgt Hl He HR IH
                 |usados b banco linhas Hna Hgt Hl HR IH];
    rewrite ?filter_nil, ?filter_cons; simpl; unfold debito;
    rewrite ?Hna, ?Hgt; simpl.
  - constructor.
  - done.
  - done.
  - by eapply Rastro_conciliado.
  - by apply Rastro_nao_conciliado.
Qed.

Lemma filter_fmap_snd {A B} (P : B → Prop) `{!∀ x, Decision (P x)}
    `{!∀ x : A * B, Decision (P x.2)} (l : list (A * B)) :
  snd <$> filter (λ x, P x.2) l = filter P (snd <$> l).
Proof.
  induction l as [|[a b] l IH]; [done|].
  rewrite fmap_cons, !filter_cons.
  destruct (decide (P (a, b).2)) as [HP|HP], (decide (P (a, b).2)) as [HP'|HP'];
    try done; rewrite ?fmap_cons, IH; done.
Qed.

(** X4: Bank rows that are entries ([> 0]) or invalid (NaN) do not take
    part in the matching: deleting them from the bank frame deletes
    their rows from the output and changes no other row. *)
Theorem entradas_e_invalidos_nao_interferem banco erp :
  conciliar_linha_a_linha (filter (λ b, debito (b_Valor b) = true) banco) erp =
  filter (λ l, debito (Valor_Banco l) = true) <$>
    conciliar_linha_a_linha banco erp.
Proof.
  destruct (conciliar_rastro_total banco erp) as (rastro & Hr & HR).
  apply Rastro_filter_debito, conciliar_rastro_Rastro in HR.
  unfold conciliar_linha_a_linha. rewrite Hr, HR.
  change (Some (snd <$> filter (λ x, debito (Valor_Banco x.2) = true) rastro)
          = Some (filter (λ l, debito (Valor_Banco l) = true) (snd <$> rastro))).
  f_equal. apply (filter_fmap_snd (λ l, debito (Valor_Banco l) = true)).
Qed.

Lemma length_livres_oferta erp k : length (livres erp [] k) = oferta k erp.
Proof.
  unfold oferta. induction erp as [|e erp IH] using rev_ind; [done|].
  rewrite livres_snoc, filter_app, !length_app, IH. f_equal.
  rewrite filter_cons, filter_nil.
  destruct (gt0 (e_Valor e) && eqb (e_Valor e) k) eqn:Hb.
  - apply andb_true_iff in Hb as [Hg He]. apply eqb_gt0_eq in He; [|done].
    by rewrite decide_True.
  - rewrite decide_False; [done|]. intros [Hg <-].
    by rewrite Hg, (proj2 (eqb_gt0_eq _ _ Hg) eq_refl) in Hb.
Qed.

Lemma Rastro_conciliados erp usados banco rastro k :
  Rastro erp usados banco rastro →
  conciliados k (snd <$> rastro) =
  demanda k banco `min` length (livres erp usados k).
Proof.
  unfold conciliados, demanda.
  induction 1 as [usados|usados b banco linhas Hna HR IH
                 |usados b banco linhas Hna Hgt HR IH
                 |usados b banco linhas idx_erp resto e Hna Hgt Hl He HR IH
                 |usados b banco linhas Hna Hgt Hl HR IH];
    rewrite ?fmap_cons, ?filter_cons; cbn [snd].
  - done.
  - rewrite decide_False by (intros [Hs _]; simpl in Hs; discriminate).
    rewrite decide_False; [done|].
    intros [Hd _]. unfold debito in Hd. by rewrite Hna in Hd.
  - rewrite decide_False by (intros [Hs _]; simpl in Hs; discriminate).
    rewrite decide_False; [done|].
    intros [Hd _]. unfold debito in Hd. by rewrite Hna, Hgt in Hd.
  - assert (debito (b_Valor b) = true) as Hd
      by (unfold debito; by rewrite Hna, Hgt).
    destruct (decide (abs (b_Valor b) = k)) as [<-|Hne].
    + rewrite decide_True by done. rewrite decide_True by done.
      cbn [length]. rewrite IH, Hl, (livres_cons_eq _ _ _ _ _ Hl). done.
    + rewrite decide_False by (by intros [_ ?]).
      rewrite decide_False by (by intros [_ ?]).
      by rewrite IH, (livres_cons_ne _ _ _ _ _ _ Hl Hne).
  - assert (debito (b_Valor b) = true) as Hd
      by (unfold debito; by rewrite Hna, Hgt).
    rewrite decide_False by (intros [Hs _]; simpl in Hs; discriminate).
    destruct (decide (abs (b_Valor b) = k)) as [<-|Hne].
    + rewrite decide_True by done. cbn [length]. rewrite IH, Hl. simpl. lia.
    + rewrite decide_False by (by intros [_ ?]). done.
Qed.

(** X5: For every amount [k], the number of Conciliado rows whose bank
    amount has absolute value [k] is the smaller of the number of bank
    rows looking for [k] and the number of ERP rows offering [k]: the
    matcher conciliates as many rows as the amounts allow. *)
Theorem conciliados_minimo_demanda_oferta banco erp :
  ∃ linhas,
    conciliar_linha_a_linha banco erp = Some linhas ∧
    ∀ k, conciliados k linhas = demanda k banco `min` oferta k erp.
Proof.
  destruct (conciliar_rastro_total banco erp) as (rastro & Hr & HR).
  exists (snd <$> rastro). unfold conciliar_linha_a_linha. rewrite Hr.
  split; [done|]. intros k.
  by rewrite (Rastro_conciliados _ _ _ _ k HR), length_livres_oferta.
Qed.

(** X6: When no ERP row has an amount above zero (an empty ERP frame, or
    only refunds, zeros and invalid amounts), no row is Conciliado and
    no match field is populated. *)
Theorem erp_sem_positivos banco erp :
  (∀ e, e ∈ erp → gt0 (e_Valor e) = false) →
  ∃ linhas,
    conciliar_linha_a_linha banco erp = Some linhas ∧
    ∀ l, l ∈ linhas → Status l ≠ Conciliado ∧ sem_match l.
Proof.
  intros Hneg.
  destruct (conciliar_rastro_total banco erp) as (rastro & Hr & HR).
  exists (snd <$> rastro). unfold conciliar_linha_a_linha. rewrite Hr.
  split; [done|]. intros l ([r l'] & -> & [i Hi]%list_elem_of_lookup)%list_elem_of_fmap.
  simpl.
  destruct (rastro_banco_lookup _ _ _ _ _ _ HR Hi) as [b Hb].
  destruct (Rastro_linha _ _ _ _ HR i b Hb) as (u & r0 & l0 & Hl0 & Huma & _).
  rewrite Hi in Hl0. injection Hl0 as <- <-.
  apply Rastro_uma in Huma
    as [(_ & Hsem & [[_ Hs]|[(_ & _ & Hs)|(_ & _ & _ & Hs)]])
       |(j & resto & e & _ & _ & _ & _ & Hliv & He)];
    [by rewrite Hs..|].
  destruct (livres_lookup _ _ _ _ _ Hliv) as (e' & He' & Hg & _).
  rewrite (Hneg e') in Hg; [done|]. by eapply list_elem_of_lookup_2.
Qed.

Lemma erp_sem_positivos_witness :
  let banco := [MkLinhaBanco Nulo Nulo None menos_cem] in
  let erp := [MkLinhaErp None menos_cem Nulo; MkLinhaErp None S754_nan Nulo] in
  (∀ e, e ∈ erp → gt0 (e_Valor e) = false) ∧
  ∃ linhas,
    conciliar_linha_a_linha banco erp = Some linhas ∧
    ∀ l, l ∈ linhas → Status l ≠ Conciliado ∧ sem_match l.
Proof.
  intros banco erp.
  assert (∀ e, e ∈ erp → gt0 (e_Valor e) = false) as Hneg.
  { intros e [->|[->|He]%elem_of_cons]%elem_of_cons; [reflexivity..|].
    by apply not_elem_of_nil in He. }
  split; [exact Hneg|]. exact (erp_sem_positivos banco erp Hneg).
Defined.

(** ** The readers *)

Lemma cols_fold_snoc (l : list string) (m : gmap string string) c :
  foldl (λ cols c, <[strip c := c]> cols) m (l ++ [c]) =
  <[strip c := c]> (foldl (λ cols c, <[strip c := c]> cols) m l).
Proof. by rewrite foldl_app. Qed.

Lemma cols_de_ultimo_aux (l : list string) k c :
  foldl (λ cols c, <[strip c := c]> cols) (∅ : gmap string string) l !! k = Some c ↔
  ∃ l1 l2, l = l1 ++ c :: l2 ∧ strip c = k ∧ ∀ c', c' ∈ l2 → strip c' ≠ k.
Proof.
  induction l as [|x l IH] using rev_ind.
  - simpl. rewrite lookup_empty. split; [done|].
    intros (l1 & l2 & Hl & _). by destruct l1.
  - rewrite cols_fold_snoc, lookup_insert.
    destruct (decide (strip x = k)) as [Hx|Hx].
    + split.
      * intros [= <-]. exists l, []. split_and!; [done..|].
        intros c' Hc'. by apply not_elem_of_nil in Hc'.
      * intros (l1 & l2 & Hl & Hc & Hl2).
        destruct l2 as [|y l2 _] using rev_ind.
        -- apply app_inj_tail in Hl as [_ ->]. done.
        -- rewrite app_comm_cons, app_assoc in Hl.
           apply app_inj_tail in Hl as [_ ->].
           destruct (Hl2 y); [|done]. apply elem_of_app. right. by left.
    + rewrite IH. split.
      * intros (l1 & l2 & -> & Hc & Hl2). exists l1, (l2 ++ [x]).
        split_and!; [by rewrite <- app_assoc|done|].
        intros c' [?|Hc']%elem_of_app; [by apply Hl2|].
        apply list_elem_of_singleton in Hc' as ->. done.
      * intros (l1 & l2 & Hl & Hc & Hl2).
        destruct l2 as [|y l2 _] using rev_ind.
        -- apply app_inj_tail in Hl as [_ ->]. done.
        -- rewrite app_comm_cons, app_assoc in Hl.
           apply app_inj_tail in Hl as [-> ->].
           exists l1, l2. split_and!; [done..|].
           intros c' Hc'. apply Hl2, elem_of_app. by left.
Qed.

(** X7: When several headers strip to the same name, [cols] keeps the last
    of them: [cols[k]] is the header [c] with [c.strip() == k] after
    which no header strips to [k]. *)
Theorem cols_guarda_ultimo_cabecalho df k c :
  cols_de df !! k = Some c ↔
  ∃ l1 l2, columns df = l1 ++ c :: l2 ∧ strip c = k ∧
           ∀ c', c' ∈ l2 → strip c' ≠ k.
Proof. apply cols_de_ultimo_aux. Qed.

(** The position under which [df[cols[nome]]] is read. *)
Lemma coluna_de_serie df nome serie :
  coluna_de df (cols_de df) nome = Ok serie →
  ∃ pos, posicao df nome = Some pos ∧ serie = (λ linha, celula linha pos) <$> linhas_df df.
Proof.
  unfold coluna_de, coluna, posicao. destruct (cols_de df !! nome) as [c|]; [|done].
  simpl.
  destruct (list_find (λ h, h = c) (columns df)) as [[pos h]|] eqn:Hf; [|done].
  intros [= <-]. by exists pos.
Qed.

(** [posicao] is the first position of the last header that strips to
    the name. *)
Lemma posicao_Some df nome pos :
  posicao df nome = Some pos ↔
  ∃ c, cols_de df !! nome = Some c ∧ columns df !! pos = Some c ∧
       ∀ p, p < pos → columns df !! p ≠ Some c.
Proof.
  unfold posicao. destruct (cols_de df !! nome) as [c|]; simpl.
  - split.
    + destruct (list_find (λ h, h = c) (columns df)) as [[pos' h]|] eqn:Hf;
        [|done].
      intros [= <-]. apply list_find_Some in Hf as (Hl & -> & Hmin).
      exists c. split_and!; try done. intros p Hp Hc. by eapply Hmin.
    + intros (c' & [= <-] & Hl & Hmin).
      assert (list_find (λ h, h = c) (columns df) = Some (pos, c)) as ->; [|done].
      apply list_find_Some. split_and!; try done.
      intros j y Hj Hlt ->. by eapply Hmin.
  - split; [done|]. by intros (c & [=] & _).
Qed.

Lemma resultado_bind_Ok {A B} (r : resultado A) (k : A → resultado B) b :
  bind_resultado r k = Ok b → ∃ a, r = Ok a ∧ k a = Ok b.
Proof. destruct r as [a|e]; simpl; [eauto|done]. Qed.

Lemma lookup_fmap_seq {A} (f : nat → A) n i :
  i < n → (f <$> seq 0 n) !! i = Some (f i).
Proof. intros Hi. by rewrite list_lookup_fmap, lookup_seq_lt. Qed.

(** The shape of what [ler_excel_banco] returns. *)
Lemma ler_excel_banco_Ok to_datetime df banco :
  ler_excel_banco to_datetime df = Ok banco →
  ∃ tipo protocolo data valor,
    (if decide (is_Some (cols_de df !! "Tipo"))
     then coluna_de df (cols_de df) "Tipo" else Ok []) = Ok tipo ∧
    (if decide (is_Some (cols_de df !! "Protocolo"))
     then coluna_de df (cols_de df) "Protocolo"
     else if decide (is_Some (cols_de df !! "Tipo"))
          then Ok (replicate (length (linhas_df df)) (Str ""))
          else Ok []) = Ok protocolo ∧
    coluna_de df (cols_de df) "Data" = Ok data ∧
    coluna_de df (cols_de df) "Valor" = Ok valor ∧
    banco = (λ i, {| b_Tipo := default Nulo (tipo !! i);
                     b_Protocolo := default Nulo (protocolo !! i);
                     b_Data := default None (to_datetime data !! i);
                     b_Valor := default S754_nan ((valor_da_celula <$> valor) !! i) |})
            <$> seq 0 (length (linhas_df df)).
Proof.
  unfold ler_excel_banco.
  destruct (faltando_de obrig_banco (cols_de df)); [|done].
  intros (tipo & Ht & (protocolo & Hp & (data & Hd & (valor & Hv & [= <-])%resultado_bind_Ok)%resultado_bind_Ok)%resultado_bind_Ok)%resultado_bind_Ok.
  by exists tipo, protocolo, data, valor.
Qed.

(** ** main *)

Lemma conciliar_linha_a_linha_total banco erp :
  ∃ rastro,
    conciliar_linha_a_linha banco erp = Some (snd <$> rastro) ∧
    Rastro erp [] banco rastro.
Proof.
  destruct (conciliar_rastro_total banco erp) as (rastro & Hr & HR).
  exists rastro. unfold conciliar_linha_a_linha. by rewrite Hr.
Qed.


Lemma main_Ok to_datetime df_banco df_erp df_conc :
  main to_datetime df_banco df_erp = Ok df_conc →
  ∃ banco erp rastro,
    ler_excel_banco to_datetime df_banco = Ok banco ∧
    ler_excel_conexa to_datetime df_erp = Ok erp ∧
    Rastro erp [] banco rastro ∧ df_conc = snd <$> rastro.
Proof.
  unfold main.
  intros (banco & Hb & (erp & He & Hc)%resultado_bind_Ok)%resultado_bind_Ok.
  destruct (conciliar_linha_a_linha_total banco erp) as (rastro & Hr & HR).
  rewrite Hr in Hc. injection Hc as <-. by exists banco, erp, rastro.
Qed.

(** X13: When [main] succeeds, the frame it writes has one row per row of
    the bank sheet, whatever the number of rows of the ERP sheet. *)
Theorem main_uma_linha_por_linha_da_planilha to_datetime df_banco df_erp df_conc :
  main to_datetime df_banco df_erp = Ok df_conc →
  length df_conc = length (linhas_df df_banco).
Proof.
  intros (banco & erp & rastro & Hb & _ & HR & ->)%main_Ok.
  rewrite length_fmap, (Rastro_length _ _ _ _ HR).
  apply ler_excel_banco_Ok in Hb as (? & ? & ? & ? & _ & _ & _ & _ & ->).
  by rewrite length_fmap, length_seq.
Qed.

Lemma main_uma_linha_por_linha_da_planilha_witness :
  let df_banco :=
    MkDataFrame ["Data"; "Valor"]
      [[Str "02/01/2024"; Str "-100"]; [Str "03/01/2024"; Str "100"]] in
  let df_erp := MkDataFrame ["Quitação"; "Valor"] [[Str "02/01/2024"; Str "100"]] in
  ∃ df_conc,
    main sem_datas df_banco df_erp = Ok df_conc ∧
    length df_conc = length (linhas_df df_banco).
Proof.
  intros df_banco df_erp. eexists. split; [reflexivity|].
  eapply (main_uma_linha_por_linha_da_planilha sem_datas df_banco df_erp).
  reflexivity.
Defined.

(** X14: A bank cell that does not read as a number does not stop [main]:
    when [main] succeeds, every row of the bank sheet whose Valor cell
    reads as NaN (empty cell, text, a number with a thousands
    separator) comes out as a Zero ou inválido row with no match field
    populated. *)
Theorem main_celula_invalida to_datetime df_banco df_erp df_conc pos i linha :
  main to_datetime df_banco df_erp = Ok df_conc →
  posicao df_banco "Valor" = Some pos →
  linhas_df df_banco !! i = Some linha →
  isna (valor_da_celula (celula linha pos)) = true →
  ∃ l, df_conc !! i = Some l ∧ Status l = ZeroOuInvalido ∧ sem_match l.
Proof.
  intros (banco & erp & rastro & Hb & _ & HR & ->)%main_Ok Hpos Hi Hna.
  apply ler_excel_banco_Ok in Hb as (? & ? & ? & valor & _ & _ & _ & Hv & ->).
  apply coluna_de_serie in Hv as (pos' & Hpos' & ->).
  rewrite Hpos in Hpos'. injection Hpos' as <-.
  pose proof (lookup_lt_Some _ _ _ Hi) as Hlt.
  edestruct (Rastro_linha _ _ _ _ HR i) as (u & r & l & Hl & Huma & _).
  { by apply lookup_fmap_seq. }
  exists l. rewrite list_lookup_fmap, Hl. split; [done|].
  apply Rastro_uma in Huma
    as [(_ & Hsem & [[_ Hs]|[(Hna' & _)|(Hna' & _)]])|(? & ? & ? & _ & _ & Hna' & _)];
    [done|exfalso..];
    simpl in Hna'; rewrite !list_lookup_fmap, Hi in Hna'; simpl in Hna';
    congruence.
Qed.

Lemma main_celula_invalida_witness :
  let df_banco :=
    MkDataFrame ["Data"; "Valor"]
      [[Str "02/01/2024"; Str "-100"]; [Str "03/01/2024"; Str "1.234,56"]] in
  let df_erp := MkDataFrame ["Quitação"; "Valor"] [[Str "02/01/2024"; Str "100"]] in
  let linha := [Str "03/01/2024"; Str "1.234,56"] in
  ∃ df_conc,
    main sem_datas df_banco df_erp = Ok df_conc ∧
    posicao df_banco "Valor" = Some 1 ∧
    linhas_df df_banco !! 1 = Some linha ∧
    isna (valor_da_celula (celula linha 1)) = true ∧
    ∃ l, df_conc !! 1 = Some l ∧ Status l = ZeroOuInvalido ∧ sem_match l.
Proof.
  intros df_banco df_erp linha. eexists.
  split; [reflexivity|]. split; [reflexivity|]. split; [reflexivity|].
  split; [reflexivity|].
  eapply (main_celula_invalida sem_datas df_banco df_erp _ 1 1 linha);
    reflexivity.
Defined.

(** ** aplicar_cores *)

Lemma header_fold_snoc (l : list Celula) c :
  foldl (λ header p,
           match value p.2 with
           | VStr s => <[s := p.1]> header
           | _ => header
           end)
        (∅ : gmap string nat) (imap (λ i cell, (S i, cell)) (l ++ [c])) =
  let header :=
    foldl (λ header p,
             match value p.2 with
             | VStr s => <[s := p.1]> header
             | _ => header
             end)
          (∅ : gmap string nat) (imap (λ i cell, (S i, cell)) l) in
  match value c with
  | VStr s => <[s := S (length l)]> header
  | _ => header
  end.
Proof. rewrite imap_app, foldl_app. simpl. by rewrite Nat.add_0_r. Qed.

Lemma header_fold_lookup (l : list Celula) nome idx :
  foldl (λ header p,
           match value p.2 with
           | VStr s => <[s := p.1]> header
           | _ => header
           end)
        (∅ : gmap string nat) (imap (λ i cell, (S i, cell)) l) !! nome = Some idx ↔
  ∃ p cell,
    idx = S p ∧ l !! p = Some cell ∧ value cell = VStr nome ∧
    ∀ p' cell', p < p' → l !! p' = Some cell' → value cell' ≠ VStr nome.
Proof.
  revert idx. induction l as [|c l IH] using rev_ind; intros idx.
  - simpl. rewrite lookup_empty. split; [done|]. by intros (p & cell & _ & ? & _).
  - rewrite header_fold_snoc. cbv zeta.
    assert (∀ p cell, (l ++ [c]) !! p = Some cell →
              p < length l ∧ l !! p = Some cell ∨ p = length l ∧ cell = c) as Hsnoc.
    { intros p cell Hp. destruct (decide (p < length l)) as [Hlt|Hge].
      - left. by rewrite lookup_app_l in Hp.
      - right. rewrite lookup_app_r in Hp by lia.
        destruct (p - length l) as [|n] eqn:Hn; [|by destruct n].
        injection Hp as <-. split; [lia|done]. }
    destruct (decide (value c = VStr nome)) as [Hc|Hc].
    + rewrite Hc, lookup_insert_eq. split.
      * intros [= <-]. exists (length l), c. split_and!; try done.
        -- by rewrite list_lookup_middle.
        -- intros p' cell' Hlt Hp'. apply Hsnoc in Hp' as [[? _]|[? _]]; lia.
      * intros (p & cell & -> & Hp & _ & Hmax).
        apply Hsnoc in Hp as [[Hlt _]|[-> _]]; [|done].
        destruct (Hmax (length l) c Hlt); [|done]. by rewrite list_lookup_middle.
    + assert (match value c with
              | VStr s => <[s := S (length l)]>
                  (foldl (λ header p,
                     match value p.2 with
                     | VStr s => <[s := p.1]> header
                     | _ => header
                     end) (∅ : gmap string nat) (imap (λ i cell, (S i, cell)) l))
              | _ => foldl (λ header p,
                     match value p.2 with
                     | VStr s => <[s := p.1]> header
                     | _ => header
                     end) (∅ : gmap string nat) (imap (λ i cell, (S i, cell)) l)
              end !! nome =
              foldl (λ header p,
                     match value p.2 with
                     | VStr s => <[s := p.1]> header
                     | _ => header
                     end) (∅ : gmap string nat) (imap (λ i cell, (S i, cell)) l)
              !! nome) as ->.
      { destruct (value c) as [|s| | | |]; try done.
        rewrite lookup_insert_ne; [done|]. by intros ->. }
      rewrite IH. split.
      * intros (p & cell & -> & Hp & Hv & Hmax). exists p, cell.
        split_and!; try done.
        -- rewrite lookup_app_l; [done|]. by eapply lookup_lt_Some.
        -- intros p' cell' Hlt Hp'.
           apply Hsnoc in Hp' as [[_ Hp']|[_ ->]]; [by eapply Hmax|done].
      * intros (p & cell & -> & Hp & Hv & Hmax).
        apply Hsnoc in Hp as [[Hlt Hp]|[_ ->]]; [|done].
        exists p, cell. split_and!; try done.
        intros p' cell' Hlt' Hp'. apply (Hmax p' cell' Hlt').
        rewrite lookup_app_l; [done|]. by eapply lookup_lt_Some.
Qed.

(** X15: The header gives, for a text, the position (counted from 1) of the
    last cell of row 1 that holds this text; positions are never 0. So
    when two columns carry the same header, only the last is styled. *)
Theorem header_guarda_ultima_coluna ws nome idx :
  header_de ws !! nome = Some idx ↔
  ∃ p cell,
    idx = S p ∧ default [] (head ws) !! p = Some cell ∧
    value cell = VStr nome ∧
    ∀ p' cell', p < p' → default [] (head ws) !! p' = Some cell' →
                value cell' ≠ VStr nome.
Proof. apply header_fold_lookup. Qed.

Lemma imap_id_celula {A} (l : list A) : imap (λ _ x, x) l = l.
Proof.
  apply list_eq. intros i. rewrite list_lookup_imap. by destruct (l !! i).
Qed.

Lemma por_celula_lookup g ws r :
  por_celula g ws !! r = imap (g r) <$> ws !! r.
Proof. unfold por_celula. by rewrite list_lookup_imap. Qed.

Lemma por_celula_ext g1 g2 ws :
  (∀ r p c, g1 r p c = g2 r p c) → por_celula g1 ws = por_celula g2 ws.
Proof.
  intros Hg. unfold por_celula. apply imap_ext. intros r linha _.
  apply imap_ext. intros p c _. apply Hg.
Qed.

Lemma por_celula_id ws : por_celula (λ _ _ c, c) ws = ws.
Proof.
  apply list_eq. intros r. rewrite por_celula_lookup.
  destruct (ws !! r); simpl; [|done]. by rewrite imap_id_celula.
Qed.

Lemma por_celula_compose g1 g2 ws :
  por_celula g2 (por_celula g1 ws) = por_celula (λ r p c, g2 r p (g1 r p c)) ws.
Proof.
  apply list_eq. intros r. rewrite !por_celula_lookup.
  destruct (ws !! r) as [linha|]; simpl; [|done]. f_equal.
  apply list_eq. intros p. rewrite !list_lookup_imap.
  by destruct (linha !! p).
Qed.

Lemma alter_imap (f : Celula → Celula) k (linha : list Celula) :
  alter f k linha = imap (λ p c, if (p =? k)%nat then f c else c) linha.
Proof.
  apply list_eq. intros p. rewrite list_lookup_imap.
  destruct (Nat.eqb_spec p k) as [->|Hne].
  - by rewrite list_lookup_alter_eq.
  - rewrite list_lookup_alter_ne by done. by destruct (linha !! p).
Qed.

Lemma na_coluna_por_celula f k ws :
  na_coluna f (S k) ws =
  por_celula (λ r p c, if negb (r =? 0)%nat && (p =? k)%nat then f c else c) ws.
Proof.
  apply list_eq. intros r. rewrite por_celula_lookup.
  destruct ws as [|cabecalho dados]; [done|].
  destruct r as [|r]; simpl.
  - by rewrite imap_id_celula.
  - rewrite list_lookup_fmap, Nat.sub_0_r.
    destruct (dados !! r) as [linha|]; simpl; [|done].
    by rewrite alter_imap.
Qed.

Lemma na_coluna_de_por_celula header f ws nome :
  na_coluna_de header f ws nome =
  por_celula (λ r p c, if negb (r =? 0)%nat && coluna_de_nome header nome p
                       then f c else c) ws.
Proof.
  unfold na_coluna_de, coluna_de_nome.
  destruct (header !! nome) as [[|k]|] eqn:Hh.
  - rewrite <- (por_celula_id ws) at 1. apply por_celula_ext. intros r p c.
    rewrite bool_decide_eq_false_2 by done. by rewrite andb_false_r.
  - rewrite na_coluna_por_celula. apply por_celula_ext. intros r p c.
    destruct (Nat.eqb_spec p k) as [->|Hne].
    + by rewrite bool_decide_eq_true_2.
    + rewrite bool_decide_eq_false_2; [done|]. intros [= ->]. done.
  - rewrite <- (por_celula_id ws) at 1. apply por_celula_ext. intros r p c.
    rewrite bool_decide_eq_false_2 by done. by rewrite andb_false_r.
Qed.

Lemma colorir_colorir c : colorir (colorir c) = colorir c.
Proof.
  unfold colorir. destruct (e_numero (value c)) eqn:He; [|by rewrite He].
  destruct (maior_que_zero (value c)) eqn:Hm; simpl; [by rewrite He, Hm|].
  destruct (menor_que_zero (value c)) eqn:Hn; simpl; by rewrite He, Hm, Hn.
Qed.

(** The two loops, cell by cell. *)
Lemma estilizar_por_celula ws :
  estilizar ws = por_celula (estilo_final (header_de ws)) ws.
Proof.
  unfold estilizar. simpl. rewrite !na_coluna_de_por_celula, !por_celula_compose.
  apply por_celula_ext. intros r p c.
  unfold estilo_final, coluna_de_valor, coluna_de_data.
  destruct (negb (r =? 0)%nat); simpl; [|done].
  destruct (coluna_de_nome (header_de ws) "Valor Banco" p),
           (coluna_de_nome (header_de ws) "Valor ERP" p),
           (coluna_de_nome (header_de ws) "Data Banco" p),
           (coluna_de_nome (header_de ws) "Data ERP Quitação" p);
    simpl; rewrite ?colorir_colorir; done.
Qed.

Lemma estilizar_lookup ws r :
  estilizar ws !! r = imap (estilo_final (header_de ws) r) <$> ws !! r.
Proof. by rewrite estilizar_por_celula, por_celula_lookup. Qed.

Lemma estilo_final_value header r p c :
  value (estilo_final header r p c) = value c.
Proof.
  unfold estilo_final, formatar_data, colorir.
  repeat match goal with |- context [if ?b then _ else _] => destruct b end;
    done.
Qed.

Lemma estilizar_head ws : head (estilizar ws) = head ws.
Proof.
  rewrite !head_lookup, estilizar_lookup.
  destruct (ws !! 0) as [linha|]; simpl; [|done]. f_equal.
  rewrite <- (imap_id_celula linha) at 2. by apply imap_ext.
Qed.

Lemma header_de_estilizar ws : header_de (estilizar ws) = header_de ws.
Proof. unfold header_de. by rewrite estilizar_head. Qed.

Lemma estilo_final_idem header r p c :
  estilo_final header r p (estilo_final header r p c) = estilo_final header r p c.
Proof.
  unfold estilo_final.
  destruct (negb (r =? 0)%nat && coluna_de_valor header p),
           (negb (r =? 0)%nat && coluna_de_data header p); try done.
  - unfold formatar_data at 2. unfold colorir at 1. simpl.
    unfold formatar_data, colorir.
    repeat match goal with |- context [if ?b then _ else _] => destruct b eqn:? end;
      simpl in *; congruence.
  - apply colorir_colorir.
Qed.

Lemma estilizar_estilizar ws : estilizar (estilizar ws) = estilizar ws.
Proof.
  rewrite (estilizar_por_celula (estilizar ws)), header_de_estilizar.
  rewrite estilizar_por_celula, por_celula_compose.
  apply por_celula_ext. intros r p c. apply estilo_final_idem.
Qed.

Lemma estilizar_values ws :
  fmap (M := list) value <$> estilizar ws = fmap (M := list) value <$> ws.
Proof.
  apply list_eq. intros r. rewrite !list_lookup_fmap, estilizar_lookup.
  destruct (ws !! r) as [linha|]; simpl; [|done]. f_equal.
  apply list_eq. intros p. rewrite !list_lookup_fmap, list_lookup_imap.
  destruct (linha !! p); simpl; [|done]. by rewrite estilo_final_value.
Qed.

(** X16: What [aplicar_cores] does to each cell of the sheet. The value is
    kept. In the rows after the first, a cell of the column whose header
    is Valor Banco or Valor ERP gets a green font when it holds a number
    above zero and a red font when it holds a number below zero; a zero,
    a NaN or a value that is not a number keeps its font. In the rows
    after the first, a cell of the column whose header is Data Banco or
    Data ERP Quitação gets the format dd/mm/yyyy, whatever it holds.
    Nothing else changes: not the first row, not the other columns. *)
Theorem aplicar_cores_celula wb sheet_name ws r linha p cell :
  wb !! sheet_name = Some ws →
  ws !! r = Some linha →
  linha !! p = Some cell →
  ∃ wb' ws' linha' cell',
    aplicar_cores wb sheet_name = Ok wb' ∧
    wb' !! sheet_name = Some ws' ∧ ws' !! r = Some linha' ∧
    linha' !! p = Some cell' ∧
    value cell' = value cell ∧
    font cell' =
      (if negb (r =? 0)%nat && coluna_de_valor (header_de ws) p
          && e_numero (value cell)
       then if maior_que_zero (value cell) then Font verde
            else if menor_que_zero (value cell) then Font vermelho
            else font cell
       else font cell) ∧
    number_format cell' =
      (if negb (r =? 0)%nat && coluna_de_data (header_de ws) p
       then formato_data else number_format cell).
Proof.
  intros Hws Hr Hp. unfold aplicar_cores. rewrite Hws.
  exists (<[sheet_name := estilizar ws]> wb), (estilizar ws),
    (imap (estilo_final (header_de ws) r) linha),
    (estilo_final (header_de ws) r p cell).
  split; [done|]. split; [by rewrite lookup_insert_eq|].
  split; [by rewrite estilizar_lookup, Hr|].
  split; [by rewrite list_lookup_imap, Hp|].
  split; [apply estilo_final_value|].
  unfold estilo_final, formatar_data, colorir.
  destruct (negb (r =? 0)%nat && coluna_de_valor (header_de ws) p),
           (negb (r =? 0)%nat && coluna_de_data (header_de ws) p),
           (e_numero (value cell)),
           (maior_que_zero (value cell)),
           (menor_que_zero (value cell)); done.
Qed.

Lemma aplicar_cores_celula_witness :
  let cab := MkCelula (VStr "Valor Banco") (FonteLida 1) "General" in
  let cell := MkCelula (VFloat menos_cem) (FonteLida 0) "General" in
  let ws := [[cab]; [cell]] in
  let wb : gmap string (list (list Celula)) := {[ "Conciliacao" := ws ]} in
  wb !! "Conciliacao" = Some ws ∧ ws !! 1 = Some [cell] ∧ [cell] !! 0 = Some cell ∧
  ∃ wb' ws' linha' cell',
    aplicar_cores wb "Conciliacao" = Ok wb' ∧
    wb' !! "Conciliacao" = Some ws' ∧ ws' !! 1 = Some linha' ∧
    linha' !! 0 = Some cell' ∧
    value cell' = value cell ∧
    font cell' =
      (if negb (1 =? 0)%nat && coluna_de_valor (header_de ws) 0
          && e_numero (value cell)
       then if maior_que_zero (value cell) then Font verde
            else if menor_que_zero (value cell) then Font vermelho
            else font cell
       else font cell) ∧
    number_format cell' =
      (if negb (1 =? 0)%nat && coluna_de_data (header_de ws) 0
       then formato_data else number_format cell).
Proof.
  intros cab cell ws wb.
  split; [reflexivity|]. split; [reflexivity|]. split; [reflexivity|].
  apply (aplicar_cores_celula wb "Conciliacao" ws 1 [cell] 0 cell); reflexivity.
Defined.

(** X17: [aplicar_cores] raises [KeyError] when the workbook has no sheet of
    the name, and then saves nothing. Otherwise it succeeds; the other
    sheets are as they were, and in the styled sheet the first row is
    untouched and every cell holds the value it held: no row, no cell
    and no value is added, removed or changed. *)
Theorem aplicar_cores_preserva wb sheet_name :
  match wb !! sheet_name with
  | None => aplicar_cores wb sheet_name = Raise (KeyError sheet_name)
  | Some ws =>
      ∃ wb' ws',
        aplicar_cores wb sheet_name = Ok wb' ∧
        wb' !! sheet_name = Some ws' ∧
        (∀ n, n ≠ sheet_name → wb' !! n = wb !! n) ∧
        head ws' = head ws ∧
        fmap (M := list) value <$> ws' = fmap (M := list) value <$> ws
  end.
Proof.
  unfold aplicar_cores. destruct (wb !! sheet_name) as [ws|] eqn:Hws; [|done].
  exists (<[sheet_name := estilizar ws]> wb), (estilizar ws).
  split_and!; [done|by rewrite lookup_insert_eq| |apply estilizar_head
              |apply estilizar_values].
  intros n Hn. by rewrite lookup_insert_ne.
Qed.

(** X18: Styling a workbook that is already styled changes nothing. *)
Theorem aplicar_cores_idempotente wb sheet_name wb' :
  aplicar_cores wb sheet_name = Ok wb' →
  aplicar_cores wb' sheet_name = Ok wb'.
Proof.
  unfold aplicar_cores. destruct (wb !! sheet_name) as [ws|]; [|done].
  intros [= <-]. rewrite lookup_insert_eq, estilizar_estilizar.
  by rewrite insert_insert_eq.
Qed.

Lemma aplicar_cores_idempotente_witness :
  let cab := [MkCelula (VStr "Data Banco") (FonteLida 1) "General";
              MkCelula (VStr "Valor Banco") (FonteLida 1) "General"] in
  let linha := [MkCelula (VData 0) (FonteLida 0) "General";
                MkCelula (VInt 5) (FonteLida 0) "General"] in
  let wb : gmap string (list (list Celula)) :=
    {[ "Conciliacao" := [cab; linha] ]} in
  ∃ wb', aplicar_cores wb "Conciliacao" = Ok wb' ∧
         aplicar_cores wb' "Conciliacao" = Ok wb'.
Proof.
  intros cab linha wb. eexists. split; [reflexivity|].
  apply (aplicar_cores_idempotente wb "Conciliacao"). reflexivity.
Defined.

(** X19: A sheet whose first row holds none of the four headers (for one,
    the sheet written for a bank frame without rows) is saved as it
    was loaded. *)
Theorem aplicar_cores_sem_cabecalhos wb sheet_name ws :
  wb !! sheet_name = Some ws →
  (∀ cell nome,
     cell ∈ default [] (head ws) →
     nome ∈ ["Valor Banco"; "Valor ERP"; "Data Banco"; "Data ERP Quitação"] →
     value cell ≠ VStr nome) →
  aplicar_cores wb sheet_name = Ok wb.
Proof.
  intros Hws Hsem. unfold aplicar_cores. rewrite Hws.
  assert (estilizar ws = ws) as ->; [|by rewrite insert_id].
  assert (∀ nome,
            nome ∈ ["Valor Banco"; "Valor ERP"; "Data Banco"; "Data ERP Quitação"] →
            header_de ws !! nome = None) as Hnone.
  { intros nome Hnome. destruct (header_de ws !! nome) as [idx|] eqn:Hh; [|done].
    apply header_fold_lookup in Hh as (p & cell & _ & Hp & Hv & _).
    destruct (Hsem cell nome); [|done..]. by eapply list_elem_of_lookup_2. }
  rewrite estilizar_por_celula.
  transitivity (por_celula (λ _ _ c, c) ws); [|apply por_celula_id].
  apply por_celula_ext. intros r p c.
  unfold estilo_final, coluna_de_valor, coluna_de_data, coluna_de_nome.
  rewrite !Hnone by set_solver.
  rewrite !bool_decide_eq_false_2 by done. by rewrite !andb_false_r.
Qed.

Lemma aplicar_cores_sem_cabecalhos_witness :
  let ws := [[MkCelula VNone (FonteLida 0) "General"]] in
  let wb : gmap string (list (list Celula)) := {[ "Conciliacao" := ws ]} in
  wb !! "Conciliacao" = Some ws ∧
  (∀ cell nome,
     cell ∈ default [] (head ws) →
     nome ∈ ["Valor Banco"; "Valor ERP"; "Data Banco"; "Data ERP Quitação"] →
     value cell ≠ VStr nome) ∧
  aplicar_cores wb "Conciliacao" = Ok wb.
Proof.
  intros ws wb.
  assert (∀ cell nome,
     cell ∈ default [] (head ws) →
     nome ∈ ["Valor Banco"; "Valor ERP"; "Data Banco"; "Data ERP Quitação"] →
     value cell ≠ VStr nome) as Hsem.
  { intros cell nome [->|H]%elem_of_cons _; [done|]. by apply not_elem_of_nil in H. }
  split; [reflexivity|]. split; [exact Hsem|].
  exact (aplicar_cores_sem_cabecalhos wb "Conciliacao" ws eq_refl Hsem).
Defined.
